(** * dotsOCR HTTP gateway (api.py): a shallow embedding and its properties

    The gateway has three FastAPI handlers, [parse_image], [parse_pdf] and
    [parse_file].  They validate an upload, stage it in a scratch workspace
    on disk, call the external OCR engine, read the engine's layout files
    back and tear the workspace down.

    The handlers are embedded as computations in a state-and-exception
    monad over a [World] (file system, read position of the upload, log of
    engine calls).  Everything the handlers obtain from libraries or from
    the operating system (the text of [str(e)] for an [HTTPException],
    [Path(..).suffix.lower()], the names chosen by [tempfile.mkdtemp], the
    JSON parser, the OCR engine itself) is a field of the record [Env]. *)

From Stdlib Require Import ZArith Ascii.
From stdpp Require Import base option list strings gmap fin_maps pretty.

Local Open Scope string_scope.
Local Open Scope Z_scope.
#[local] Set Warnings "-register-all".

(** Python [bytes] *)
Abbreviation bytes := (list Byte.byte).

(** ** Exceptions *)

(** The exceptions below are all subclasses of Python's [Exception]:
    [HTTPException] is FastAPI's, [PyException cls msg] is any other one,
    with [str(e) = msg]. *)
Inductive exn : Type :=
  | HTTPException (status_code : Z) (detail : string)
  | PyException (cls : string) (msg : string).

Inductive outcome (A : Type) : Type :=
  | Raise (e : exn)
  | Ret (a : A).
Arguments Raise {A} e.
Arguments Ret {A} a.

(** ** JSON values *)

Inductive json : Type :=
  | JNull
  | JBool (b : bool)
  | JNum (z : Z)
  | JStr (s : string)
  | JArr (l : list json)
  | JObj (members : list (string * json)).

(** The Python literal [{}]. *)
Definition empty_object : json := JObj [].

(** ** The world *)

Inductive node : Type :=
  | File (data : bytes)
  | Dir.

(** The file system maps path strings to nodes.  Paths are compared as
    strings; the handlers only build paths with [os.path.join] from the
    names returned by [tempfile.mkdtemp] and [os.listdir]. *)
Abbreviation FS := (gmap string node).

Inductive entry_point : Type := EngineParseImage | EngineParsePdf.

(** One call of [dots_parser.parse_image] or [dots_parser.parse_pdf] with
    its keyword arguments ([c_fitz_preprocess] is passed by [parse_image]
    only). *)
Record EngineCall : Type := {
  c_entry : entry_point;
  c_input_path : string;
  c_filename : string;
  c_prompt_mode : string;
  c_save_dir : string;
  c_fitz_preprocess : option bool
}.

(** A per-page result descriptor: the values of
    [result.get('layout_info_path')] and [result.get('page_no')]
    ([None] when the key is absent). *)
Record descriptor : Type := {
  layout_info_path : option string;
  d_page_no : option Z
}.

Record World : Type := {
  fs : FS;
  upos : nat;                (* read position of the request's UploadFile *)
  ntmp : nat;                (* number of tempfile.mkdtemp() calls so far *)
  calls : list EngineCall    (* engine calls made so far, oldest first *)
}.

Record UploadFile : Type := {
  filename : option string;
  content : bytes
}.

Record Env : Type := {
  (* str(e) for e = HTTPException(status_code, detail) *)
  http_str : Z → string → string;
  (* Path(name).suffix.lower(); None when Path raises TypeError *)
  suffix_lower : string → option string;
  (* the n-th tempfile.mkdtemp(): the name it picks, or the exception it
     raises *)
  tmp_name : nat → outcome string;
  (* uuid.uuid4().hex *)
  uuid_hex : string;
  (* os.path.abspath *)
  abspath : string → string;
  (* Some e: buffer.write raises e *)
  write_fault : option exn;
  (* json.load on the bytes of a file: the value, or the exception it
     raises *)
  json_load : bytes → outcome json;
  (* the external engine: the descriptors it returns or the exception it
     raises, and what it does to the file system *)
  engine : EngineCall → FS → FS * outcome (list descriptor)
}.

(** [str(e)] *)
Definition exn_str (env : Env) (e : exn) : string :=
  match e with
  | HTTPException s d => http_str env s d
  | PyException _ m => m
  end.

(** ** The monad *)

Definition M (A : Type) : Type := World → World * outcome A.

Definition ret {A} (a : A) : M A := λ w, (w, Ret a).

Definition raise {A} (e : exn) : M A := λ w, (w, Raise e).

Definition bind {A B} (m : M A) (k : A → M B) : M B :=
  λ w, match m w with
       | (w', Ret a) => k a w'
       | (w', Raise e) => (w', Raise e)
       end.

Notation "'let*' x ':=' m 'in' k" := (bind m (λ x, k))
  (at level 10, x pattern, m at level 100, k at level 200).
Notation "m '>>' k" := (bind m (λ _, k))
  (at level 100, k at level 200, right associativity).

(** [if c: raise e] *)
Definition raise_if (c : bool) (e : exn) : M unit :=
  if c then raise e else ret tt.

(** [try: m  except Exception as e: h e] *)
Definition try_except {A} (m : M A) (h : exn → M A) : M A :=
  λ w, match m w with
       | (w', Ret a) => (w', Ret a)
       | (w', Raise e) => h e w'
       end.

(** [try: m  finally: fin].  An exception raised by [fin] replaces the
    outcome of [m], a return value included. *)
Definition try_finally {A} (m : M A) (fin : M unit) : M A :=
  λ w, match m w with
       | (w', r) =>
           match fin w' with
           | (w'', Ret _) => (w'', r)
           | (w'', Raise e) => (w'', Raise e)
           end
       end.

(** [for x in l: f x] *)
Fixpoint for_each {A} (l : list A) (f : A → M unit) : M unit :=
  match l with
  | [] => ret tt
  | x :: l' => f x >> for_each l' f
  end.

(** [for x in l: acc.append(f x)] *)
Fixpoint for_collect {A B} (l : list A) (f : A → M B) : M (list B) :=
  match l with
  | [] => ret []
  | x :: l' => let* y := f x in let* ys := for_collect l' f in ret (y :: ys)
  end.

(** ** Path strings *)

Definition starts_with_slash (s : string) : bool :=
  match s with
  | String "/"%char _ => true
  | _ => false
  end.

Fixpoint ends_with_slash (s : string) : bool :=
  match s with
  | EmptyString => false
  | String "/"%char EmptyString => true
  | String _ s' => ends_with_slash s'
  end.

Fixpoint has_slash (s : string) : bool :=
  match s with
  | EmptyString => false
  | String "/"%char _ => true
  | String _ s' => has_slash s'
  end.

(** The prefix shared by the entries of directory [d]: [d] itself when it
    is empty or ends with a slash, [d + '/'] otherwise. *)
Definition dir_prefix (d : string) : string :=
  if String.eqb d "" || ends_with_slash d then d else d +:+ "/".

(** [os.path.join(a, b)] (posixpath) *)
Definition path_join (a b : string) : string :=
  if starts_with_slash b then b else dir_prefix a +:+ b.

(** [strip_prefix p s = Some r] when [s = p + r]. *)
Fixpoint strip_prefix (p s : string) : option string :=
  match p, s with
  | EmptyString, _ => Some s
  | String a p', String b s' =>
      if Ascii.eqb a b then strip_prefix p' s' else None
  | String _ _, EmptyString => None
  end.

(** The name under which path [k] is listed in directory [d], if it is
    one of its entries. *)
Definition child_name (d k : string) : option string :=
  match strip_prefix (dir_prefix d) k with
  | Some n => if String.eqb n "" || has_slash n then None else Some n
  | None => None
  end.

(** The names of the entries of directory [d]. *)
Definition children (t : FS) (d : string) : list string :=
  omap (child_name d) (map_to_list t).*1.

(** ** Operating-system and library calls *)

Definition os_error (cls what path : string) : exn :=
  PyException cls (what +:+ ": '" +:+ path +:+ "'").

Definition get_fs : M FS := λ w, (w, Ret (fs w)).

Definition set_fs (t : FS) : M unit :=
  λ w, ({| fs := t; upos := upos w; ntmp := ntmp w; calls := calls w |}, Ret tt).

(** [os.path.exists(p)] *)
Definition path_exists (p : string) : M bool :=
  let* t := get_fs in ret (bool_decide (is_Some (t !! p))).

(** [os.listdir(d)].  The names come in the order of the map's keys;
    [os.listdir] promises no order.  A loop over the list that runs to
    its end does the same in any order; one that raises half-way does
    not, and what it has removed by then depends on the order. *)
Definition listdir (d : string) : M (list string) :=
  let* t := get_fs in
  match t !! d with
  | None => raise (os_error "FileNotFoundError" "[Errno 2] No such file or directory" d)
  | Some (File _) => raise (os_error "NotADirectoryError" "[Errno 20] Not a directory" d)
  | Some Dir => ret (children t d)
  end.

(** [os.remove(p)] *)
Definition remove (p : string) : M unit :=
  let* t := get_fs in
  match t !! p with
  | None => raise (os_error "FileNotFoundError" "[Errno 2] No such file or directory" p)
  | Some Dir => raise (os_error "IsADirectoryError" "[Errno 21] Is a directory" p)
  | Some (File _) => set_fs (delete p t)
  end.

(** [os.rmdir(d)] *)
Definition rmdir (d : string) : M unit :=
  let* t := get_fs in
  match t !! d with
  | None => raise (os_error "FileNotFoundError" "[Errno 2] No such file or directory" d)
  | Some (File _) => raise (os_error "NotADirectoryError" "[Errno 20] Not a directory" d)
  | Some Dir =>
      match children t d with
      | [] => set_fs (delete d t)
      | _ :: _ => raise (os_error "OSError" "[Errno 39] Directory not empty" d)
      end
  end.

(** [tempfile.mkdtemp()]: the environment picks the name (or fails); a
    name that is taken raises, as [mkdtemp] does when it runs out of
    candidates. *)
Definition mkdtemp (env : Env) : M string :=
  λ w,
    let w1 := {| fs := fs w; upos := upos w; ntmp := S (ntmp w); calls := calls w |} in
    match tmp_name env (ntmp w) with
    | Raise e => (w1, Raise e)
    | Ret d =>
        match fs w !! d with
        | Some _ =>
            (w1, Raise (PyException "FileExistsError"
                          "[Errno 17] No usable temporary directory name found"))
        | None =>
            ({| fs := <[d := Dir]> (fs w); upos := upos w; ntmp := S (ntmp w);
                calls := calls w |}, Ret d)
        end
    end.

(** [open(p, "wb")]: creates the file or truncates it.  (The directory of
    [p] is not looked up: at both call sites it was just created by
    [mkdtemp].) *)
Definition open_wb (p : string) : M unit :=
  let* t := get_fs in
  match t !! p with
  | Some Dir => raise (os_error "IsADirectoryError" "[Errno 21] Is a directory" p)
  | _ => set_fs (<[p := File []]> t)
  end.

(** [buffer.write(data)] on the file opened at [p], and the close that
    ends the [with] block. *)
Definition buffer_write (env : Env) (p : string) (data : bytes) : M unit :=
  match write_fault env with
  | Some e => raise e
  | None => let* t := get_fs in set_fs (<[p := File data]> t)
  end.

(** [with open(p, 'r', encoding='utf-8') as f: json.load(f)] *)
Definition load_json_file (env : Env) (p : string) : M json :=
  let* t := get_fs in
  match t !! p with
  | None => raise (os_error "FileNotFoundError" "[Errno 2] No such file or directory" p)
  | Some Dir => raise (os_error "IsADirectoryError" "[Errno 21] Is a directory" p)
  | Some (File data) =>
      match json_load env data with
      | Ret v => ret v
      | Raise e => raise e
      end
  end.

(** [await file.read()]: the bytes from the current position to the end. *)
Definition upload_read (f : UploadFile) : M (bytes) :=
  λ w, ({| fs := fs w; upos := length (content f); ntmp := ntmp w; calls := calls w |},
        Ret (drop (upos w) (content f))).

(** [await file.seek(0)] *)
Definition upload_seek0 : M unit :=
  λ w, ({| fs := fs w; upos := 0%nat; ntmp := ntmp w; calls := calls w |}, Ret tt).

(** A call of the engine: logged, then left to the environment. *)
Definition call_engine (env : Env) (c : EngineCall) : M (list descriptor) :=
  λ w,
    match engine env c (fs w) with
    | (t, r) =>
        ({| fs := t; upos := upos w; ntmp := ntmp w; calls := calls w ++ [c] |}, r)
    end.

(** [l[0]] on a Python list *)
Definition index0 {A} (l : list A) : M A :=
  match l with
  | x :: _ => ret x
  | [] => raise (PyException "IndexError" "list index out of range")
  end.

(** ** Responses *)

Record PageEntry : Type := {
  page_no : option Z;
  full_layout_info : json
}.

Record ParseResponse : Type := {
  success : bool;
  total_pages : nat;
  results : list PageEntry
}.

(** ** The handlers of api.py *)

(** The scratch workspace of a request: the three paths that the [finally]
    blocks tear down.  In [parse_image] the file is addressed through
    [abs_temp_path], in [parse_pdf] through [temp_path]. *)
Record Workspace : Type := {
  temp_dir : string;
  temp_path : string;
  output_dir : string
}.

Definition image_exts : list string := [".jpg"; ".jpeg"; ".png"].

(** [x in l] for a list of strings *)
Definition str_in (x : string) (l : list string) : bool :=
  existsb (String.eqb x) l.

(** [not file.filename]: the name is [None] or empty *)
Definition checked_filename (f : UploadFile) : M string :=
  match filename f with
  | None | Some "" => raise (HTTPException 400 "Missing filename")
  | Some name => ret name
  end.

(** [not file] *)
Definition checked_file (file : option UploadFile) : M UploadFile :=
  match file with
  | None => raise (HTTPException 400 "No file uploaded")
  | Some f => ret f
  end.

(** [try: Path(name).suffix.lower()  except TypeError: raise 400] *)
Definition checked_suffix (env : Env) (name : string) : M string :=
  match suffix_lower env name with
  | None => raise (HTTPException 400 "Invalid filename format")
  | Some ext => ret ext
  end.

(** [file_content = await file.read(); if not file_content: raise 400;
    await file.seek(0)] *)
Definition checked_content (f : UploadFile) : M unit :=
  let* file_content := upload_read f in
  raise_if (bool_decide (file_content = []))
    (HTTPException 400 "Uploaded file is empty") >>
  upload_seek0.

(** parse_image, lines 38-56 *)
Definition validate_image (env : Env) (file : option UploadFile)
  : M (UploadFile * string) :=
  let* f := checked_file file in
  let* name := checked_filename f in
  let* file_ext := checked_suffix env name in
  raise_if (negb (str_in file_ext image_exts))
    (HTTPException 400 "Invalid image format. Supported: .jpg, .jpeg, .png") >>
  checked_content f >>
  ret (f, file_ext).

(** [output_dir = tempfile.mkdtemp(); for f in os.listdir(output_dir):
    os.remove(os.path.join(output_dir, f))] *)
Definition fresh_output_dir (env : Env) : M string :=
  let* output_dir := mkdtemp env in
  let* names := listdir output_dir in
  for_each names (λ f, remove (path_join output_dir f)) >>
  ret output_dir.

(** parse_image, lines 59-95.  The [isinstance] test of line 67 is on the
    result of [os.path.join], a [str], and never fires. *)
Definition stage_image (env : Env) (f : UploadFile) (file_ext : string)
  : M Workspace :=
  let* temp_dir := mkdtemp env in
  let temp_path := path_join temp_dir ("upload_" +:+ uuid_hex env +:+ file_ext) in
  let* file_content := upload_read f in
  open_wb temp_path >>
  buffer_write env temp_path file_content >>
  let* created := path_exists temp_path in
  raise_if (negb created) (HTTPException 500 "Failed to create temp file") >>
  let abs_temp_path := abspath env temp_path in
  let* found := path_exists abs_temp_path in
  raise_if (negb found)
    (HTTPException 500 ("Temp file not found at " +:+ abs_temp_path)) >>
  let* output_dir := fresh_output_dir env in
  ret {| temp_dir := temp_dir; temp_path := abs_temp_path; output_dir := output_dir |}.

(** Lines 108-116 and 193-201: the layout of one descriptor, [{}] unless
    the file is there and loads. *)
Definition read_layout (env : Env) (result : descriptor) : M json :=
  let full_layout_info := empty_object in
  match layout_info_path result with
  | None | Some "" => ret full_layout_info
  | Some p =>
      let* there := path_exists p in
      if there
      then try_except (load_json_file env p) (λ e, ret full_layout_info)
      else ret full_layout_info
  end.

(** The [finally] blocks, lines 124-132 and 214-222. *)
Definition cleanup (ws : Workspace) : M unit :=
  let* e1 := path_exists (temp_path ws) in
  (if e1 then remove (temp_path ws) else ret tt) >>
  let* e2 := path_exists (temp_dir ws) in
  (if e2 then rmdir (temp_dir ws) else ret tt) >>
  let* e3 := path_exists (output_dir ws) in
  if e3
  then
    let* names := listdir (output_dir ws) in
    for_each names (λ f, remove (path_join (output_dir ws) f)) >>
    rmdir (output_dir ws)
  else ret tt.

Definition image_call (ws : Workspace) (prompt_mode : string)
    (fitz_preprocess : bool) : EngineCall :=
  {| c_entry := EngineParseImage;
     c_input_path := temp_path ws;
     c_filename := "api_image";
     c_prompt_mode := prompt_mode;
     c_save_dir := output_dir ws;
     c_fitz_preprocess := Some fitz_preprocess |}.

(** parse_image, lines 97-123: the [try] body and its [except] clause. *)
Definition run_image (env : Env) (ws : Workspace) (prompt_mode : string)
    (fitz_preprocess : bool) : M (list descriptor * json) :=
  try_except
    (let* results := call_engine env (image_call ws prompt_mode fitz_preprocess) in
     let* result := index0 results in
     let* full_layout_info := read_layout env result in
     ret (results, full_layout_info))
    (λ e, raise (HTTPException 500 ("Parser error: " +:+ exn_str env e))).

(** The catch-all that closes each handler:
    [except Exception as e: raise HTTPException(status_code=500, detail=str(e))].
    [HTTPException] is an [Exception], so the handler's own 400s and 500s
    pass through it as well. *)
Definition catch_all {A} (env : Env) (m : M A) : M A :=
  try_except m (λ e, raise (HTTPException 500 (exn_str env e))).

Definition parse_image (env : Env) (file : option UploadFile)
    (prompt_mode : string) (fitz_preprocess : bool) : M ParseResponse :=
  catch_all env
    (let* (f, file_ext) := validate_image env file in
     let* ws := stage_image env f file_ext in
     let* (results, full_layout_info) :=
       try_finally (run_image env ws prompt_mode fitz_preprocess) (cleanup ws) in
     ret {| success := true;
            total_pages := length results;
            results := [ {| page_no := Some 0;
                            full_layout_info := full_layout_info |} ] |}).

(** parse_pdf, lines 154-170 *)
Definition validate_pdf (env : Env) (file : option UploadFile) : M UploadFile :=
  let* f := checked_file file in
  let* name := checked_filename f in
  let* ext := checked_suffix env name in
  raise_if (negb (String.eqb ext ".pdf"))
    (HTTPException 400 "Invalid PDF format. Only .pdf files accepted") >>
  checked_content f >>
  ret f.

(** parse_pdf, lines 172-180 *)
Definition stage_pdf (env : Env) (f : UploadFile) : M Workspace :=
  let* temp_dir := mkdtemp env in
  let temp_path := path_join temp_dir ("upload_" +:+ uuid_hex env +:+ ".pdf") in
  open_wb temp_path >>
  let* data := upload_read f in
  buffer_write env temp_path data >>
  let* output_dir := fresh_output_dir env in
  ret {| temp_dir := temp_dir; temp_path := temp_path; output_dir := output_dir |}.

Definition pdf_call (ws : Workspace) (prompt_mode : string) : EngineCall :=
  {| c_entry := EngineParsePdf;
     c_input_path := temp_path ws;
     c_filename := "api_pdf";
     c_prompt_mode := prompt_mode;
     c_save_dir := output_dir ws;
     c_fitz_preprocess := None |}.

(** parse_pdf, lines 192-206: one entry of [formatted_results] *)
Definition format_result (env : Env) (result : descriptor) : M PageEntry :=
  let* full_layout_info := read_layout env result in
  ret {| page_no := d_page_no result; full_layout_info := full_layout_info |}.

(** parse_pdf, lines 183-212: the [try] body *)
Definition run_pdf (env : Env) (ws : Workspace) (prompt_mode : string)
  : M ParseResponse :=
  let* results := call_engine env (pdf_call ws prompt_mode) in
  let* formatted_results := for_collect results (format_result env) in
  ret {| success := true;
         total_pages := length results;
         results := formatted_results |}.

Definition parse_pdf (env : Env) (file : option UploadFile)
    (prompt_mode : string) (fitz_preprocess : bool) : M ParseResponse :=
  catch_all env
    (let* f := validate_pdf env file in
     let* ws := stage_pdf env f in
     try_finally (run_pdf env ws prompt_mode) (cleanup ws)).

Definition parse_file (env : Env) (file : option UploadFile)
    (prompt_mode : string) (fitz_preprocess : bool) : M ParseResponse :=
  catch_all env
    (let* f := checked_file file in
     let* name := checked_filename f in
     let* file_ext := checked_suffix env name in
     checked_content f >>
     if String.eqb file_ext ".pdf"
     then parse_pdf env file prompt_mode fitz_preprocess
     else if str_in file_ext image_exts
     then parse_image env file prompt_mode fitz_preprocess
     else raise (HTTPException 400 "Unsupported file format")).

(** ** What the client sees *)

Inductive body : Type :=
  | ParseBody (r : ParseResponse)
  | DetailBody (detail : string)
  | ServerErrorBody.

Record HttpResponse : Type := {
  status : Z;
  payload : body
}.

(** FastAPI turns a returned dict into a 200 response, a raised
    [HTTPException] into a response with its status code and the body
    [{"detail": detail}], and any other exception into a bare 500. *)
Definition respond (r : outcome ParseResponse) : HttpResponse :=
  match r with
  | Ret resp => {| status := 200; payload := ParseBody resp |}
  | Raise (HTTPException s d) => {| status := s; payload := DetailBody d |}
  | Raise (PyException _ _) => {| status := 500; payload := ServerErrorBody |}
  end.

Inductive route : Type := ParseImageRoute | ParsePdfRoute | ParseFileRoute.

Definition handler (r : route)
  : Env → option UploadFile → string → bool → M ParseResponse :=
  match r with
  | ParseImageRoute => parse_image
  | ParsePdfRoute => parse_pdf
  | ParseFileRoute => parse_file
  end.

(** POST to a route, from the point where FastAPI calls the handler: the
    response and the world the request leaves.  [file] is the argument
    the handler receives.  The routes declare [file: UploadFile =
    File(...)], so a request without a file part, or with a part that has
    no file name, is answered 422 by FastAPI and never gets here; on
    [None] and on nameless uploads, [post] is what the handler's own
    checks do when it is called with such an argument. *)
Definition post (r : route) (env : Env) (file : option UploadFile)
    (prompt_mode : string) (fitz_preprocess : bool) (w : World)
  : World * HttpResponse :=
  match handler r env file prompt_mode fitz_preprocess w with
  | (w', o) => (w', respond o)
  end.

(** ** Notions used in the statements *)

(** The route served by each engine entry point. *)
Definition route_of (ep : entry_point) : route :=
  match ep with
  | EngineParseImage => ParseImageRoute
  | EngineParsePdf => ParsePdfRoute
  end.

(** Validation and staging of the upload: lines 38-95 of [parse_image],
    lines 154-180 of [parse_pdf]. *)
Definition staged (ep : entry_point) (env : Env) (file : option UploadFile)
  : M Workspace :=
  match ep with
  | EngineParseImage =>
      let* (f, file_ext) := validate_image env file in stage_image env f file_ext
  | EngineParsePdf =>
      let* f := validate_pdf env file in stage_pdf env f
  end.

(** The engine call of a handler. *)
Definition engine_call (ep : entry_point) (ws : Workspace)
    (prompt_mode : string) (fitz_preprocess : bool) : EngineCall :=
  match ep with
  | EngineParseImage => image_call ws prompt_mode fitz_preprocess
  | EngineParsePdf => pdf_call ws prompt_mode
  end.

(** Parse and assembly, up to the response they lead to. *)
Definition attempt (ep : entry_point) (env : Env) (ws : Workspace)
    (prompt_mode : string) (fitz_preprocess : bool) : M ParseResponse :=
  match ep with
  | EngineParseImage =>
      let* (results, full_layout_info) :=
        run_image env ws prompt_mode fitz_preprocess in
      ret {| success := true;
             total_pages := length results;
             results := [ {| page_no := Some 0;
                             full_layout_info := full_layout_info |} ] |}
  | EngineParsePdf => run_pdf env ws prompt_mode
  end.

(** The upload passes the checks of a handler whose allow-list is
    [allowed]: a file with a non-empty name, a suffix in the list, and
    bytes left to read. *)
Definition valid_upload (allowed : list string) (env : Env)
    (file : option UploadFile) (w : World) (f : UploadFile) (ext : string) : Prop :=
  file = Some f ∧
  ∃ name, filename f = Some name ∧ name ≠ "" ∧
          suffix_lower env name = Some ext ∧
          str_in ext allowed = true ∧
          drop (upos w) (content f) ≠ [].

(** The world after [await file.seek(0)]. *)
Definition rewound (w : World) : World :=
  {| fs := fs w; upos := 0%nat; ntmp := ntmp w; calls := calls w |}.

(** The extensions a route accepts. *)
Definition allow_list (r : route) : list string :=
  match r with
  | ParseImageRoute => image_exts
  | ParsePdfRoute => [".pdf"]
  | ParseFileRoute => ".pdf" :: image_exts
  end.

(** The layout that [read_layout] finds for a descriptor on disk [t]. *)
Definition layout_of (env : Env) (t : FS) (d : descriptor) : json :=
  match layout_info_path d with
  | None | Some "" => empty_object
  | Some p =>
      match t !! p with
      | Some (File data) =>
          match json_load env data with
          | Ret v => v
          | Raise _ => empty_object
          end
      | _ => empty_object
      end
  end.

(** A layout that is missing or malformed: no path in the descriptor, no
    file at the path, or a file that [json.load] rejects. *)
Inductive layout_unusable (env : Env) (t : FS) (d : descriptor) : Prop :=
  | path_absent :
      layout_info_path d = None → layout_unusable env t d
  | file_missing p :
      layout_info_path d = Some p → t !! p = None → layout_unusable env t d
  | file_malformed p data e :
      layout_info_path d = Some p → t !! p = Some (File data) →
      json_load env data = Raise e → layout_unusable env t d.

(** [changes R m]: every run of [m] takes a world to an [R]-related one,
    whether it returns or raises. *)
Definition changes {A} (R : relation World) (m : M A) : Prop :=
  ∀ w w' r, m w = (w', r) → R w w'.

(** [same_calls w w']: no engine call was made between [w] and [w']. *)
Definition same_calls : relation World := λ w w', calls w' = calls w.

(** [shrinks w w']: [w'] has lost files or directories of [w], and gained
    none. *)
Definition shrinks : relation World := λ w w', fs w' ⊆ fs w.

(** The state in which the cleanup finds the workspace: the temp file is
    not a directory; the input directory is not a file and holds nothing
    but the temp file; the output directory is not a file and holds no
    directory.  Each of the three may also be gone. *)
Definition tidy (ws : Workspace) (t : FS) : Prop :=
  t !! temp_path ws ≠ Some Dir ∧
  (∀ data, t !! temp_dir ws ≠ Some (File data)) ∧
  (∀ k, is_Some (t !! k) → is_Some (child_name (temp_dir ws) k) →
        k = temp_path ws) ∧
  (∀ data, t !! output_dir ws ≠ Some (File data)) ∧
  (∀ k, is_Some (child_name (output_dir ws) k) → t !! k ≠ Some Dir).

(** The environment gives the request a fresh workspace [ws]: names that
    are free and apart from each other, an output name with nothing
    listed under it, and a disk that takes the write. *)
Definition fresh_workspace (env : Env) (w : World) (ws : Workspace) : Prop :=
  tmp_name env (ntmp w) = Ret (temp_dir ws) ∧
  tmp_name env (S (ntmp w)) = Ret (output_dir ws) ∧
  write_fault env = None ∧
  fs w !! temp_dir ws = None ∧
  temp_path ws ≠ temp_dir ws ∧
  fs w !! temp_path ws ≠ Some Dir ∧
  output_dir ws ≠ temp_dir ws ∧
  output_dir ws ≠ temp_path ws ∧
  fs w !! output_dir ws = None ∧
  children (fs w) (output_dir ws) = [] ∧
  child_name (output_dir ws) (temp_dir ws) = None ∧
  child_name (output_dir ws) (temp_path ws) = None.

(** The world once the upload [f] is staged in [ws]. *)
Definition staged_world (w : World) (f : UploadFile) (ws : Workspace) : World :=
  {| fs := <[output_dir ws := Dir]>
             (<[temp_path ws := File (drop (upos w) (content f))]>
                (<[temp_dir ws := Dir]> (fs w)));
     upos := length (content f);
     ntmp := S (S (ntmp w));
     calls := calls w |}.

(** What /parse/file answers to a PDF, from what /parse/pdf answers: the
    same 200, or the 500 with its detail wrapped once more. *)
Definition rewrapped (env : Env) (r : HttpResponse) : HttpResponse :=
  match payload r with
  | DetailBody d =>
      {| status := 500; payload := DetailBody (http_str env 500 d) |}
  | _ => r
  end.

(** The disk once [data] is written at [p] in the new directory [td] and
    the output directory [od] is made and cleared, as a lookup: [od] is an
    empty directory, [p] holds [data], [td] is a directory and every other
    path is as on the disk [t] before. *)
Definition staged_lookup (t : FS) (td p od : string) (data : bytes)
    (k : string) : option node :=
  if decide (k = od) then Some Dir
  else if decide (is_Some (child_name od k)) then None
  else if decide (k = p) then Some (File data)
  else if decide (k = td) then Some Dir
  else t !! k.

(** What a staging that completed has done, with [p] the path that was
    written: the names came from [mkdtemp] and were free, the write went
    through, and the disk is the staged one. *)
Definition staging_done (env : Env) (w : World) (data : bytes)
    (ws : Workspace) (p : string) (w2 : World) : Prop :=
  tmp_name env (ntmp w) = Ret (temp_dir ws) ∧
  tmp_name env (S (ntmp w)) = Ret (output_dir ws) ∧
  write_fault env = None ∧
  fs w !! temp_dir ws = None ∧ p ≠ temp_dir ws ∧ fs w !! p ≠ Some Dir ∧
  output_dir ws ≠ temp_dir ws ∧ output_dir ws ≠ p ∧
  fs w !! output_dir ws = None ∧
  child_name (output_dir ws) (temp_dir ws) = None ∧
  (∀ k, fs w2 !! k = staged_lookup (fs w) (temp_dir ws) p (output_dir ws) data k) ∧
  ntmp w2 = S (S (ntmp w)) ∧ calls w2 = calls w.

(** The paths of a workspace: the temp file, the two directories and
    whatever is listed in the output directory. *)
Definition in_workspace (ws : Workspace) (k : string) : Prop :=
  k = temp_path ws ∨ k = temp_dir ws ∨ k = output_dir ws ∨
  is_Some (child_name (output_dir ws) k).

(** [tidy], as a check that runs over the entries of the disk. *)
Definition tidyb (ws : Workspace) (t : FS) : bool :=
  match t !! temp_path ws with Some Dir => false | _ => true end &&
  match t !! temp_dir ws with Some (File _) => false | _ => true end &&
  match t !! output_dir ws with Some (File _) => false | _ => true end &&
  forallb
    (λ kv : string * node,
       (bool_decide (child_name (temp_dir ws) kv.1 = None) ||
        bool_decide (kv.1 = temp_path ws)) &&
       match kv.2 with
       | Dir => bool_decide (child_name (output_dir ws) kv.1 = None)
       | File _ => true
       end)
    (map_to_list t).

(** A computation that stays in the workspace [ws]: it may remove paths
    of the workspace, and it leaves every other path and the call log as
    they are. *)
Definition stays_in (ws : Workspace) : relation World :=
  λ w w', fs w' ⊆ fs w ∧
          (∀ k, ¬ in_workspace ws k → fs w' !! k = fs w !! k) ∧
          calls w' = calls w.



(** ** A reference environment

    Concrete library behaviour, used to run the handlers on examples. *)

Module Reference.

(** Starlette's [HTTPException.__str__]: [f"{status_code}: {detail}"]. *)
Definition starlette_str (s : Z) (d : string) : string :=
  pretty s +:+ ": " +:+ d.

(** Before Starlette defined [__str__], [str] of an [HTTPException] built
    with keyword arguments was the empty string. *)
Definition legacy_str (s : Z) (d : string) : string := "".

(** The part of [s] after its last slash. *)
Fixpoint basename (s : string) : string :=
  match s with
  | EmptyString => EmptyString
  | String _ s' => if has_slash s then basename s' else s
  end.

(** The part of [s] from its last dot on. *)
Fixpoint from_last_dot (s : string) : option string :=
  match s with
  | EmptyString => None
  | String c s' =>
      match from_last_dot s' with
      | Some r => Some r
      | None => if Ascii.eqb c "."%char then Some s else None
      end
  end.

Definition lower_ascii (c : ascii) : ascii :=
  let n := nat_of_ascii c in
  if (65 <=? n)%nat && (n <=? 90)%nat then ascii_of_nat (n + 32) else c.

Fixpoint lower (s : string) : string :=
  match s with
  | EmptyString => EmptyString
  | String c s' => String (lower_ascii c) (lower s')
  end.

(** [Path(name).suffix.lower()] for ASCII names that do not end with a
    slash: the suffix starts at the last dot of the final component,
    unless that dot is its first or its last character. *)
Definition path_suffix_lower (name : string) : option string :=
  let b := basename name in
  match from_last_dot b with
  | Some r =>
      if String.eqb r b || String.eqb r "." then Some "" else Some (lower r)
  | None => Some ""
  end.

(** A JSON reader for the documents of the examples: [{}], [[]] and
    one-digit numbers. *)
Definition load (data : bytes) : outcome json :=
  match data with
  | [Byte.x7b; Byte.x7d] => Ret (JObj [])
  | [Byte.x5b; Byte.x5d] => Ret (JArr [])
  | [Byte.x31] => Ret (JNum 1)
  | [Byte.x32] => Ret (JNum 2)
  | [Byte.x33] => Ret (JNum 3)
  | _ => Raise (PyException "JSONDecodeError"
                  "Expecting value: line 1 column 1 (char 0)")
  end.

Definition env_with (eng : EngineCall → FS → FS * outcome (list descriptor))
  : Env :=
  {| http_str := starlette_str;
     suffix_lower := path_suffix_lower;
     tmp_name := λ n, Ret ("/tmp/tmp" +:+ pretty n);
     uuid_hex := "9f1c";
     abspath := λ p, p;
     write_fault := None;
     json_load := load;
     engine := eng |}.

(** An empty disk with its [/tmp], the upload at position 0. *)
Definition w0 : World :=
  {| fs := {[ "/tmp" := Dir ]}; upos := 0; ntmp := 0; calls := [] |}.

Definition upload (name : string) : UploadFile :=
  {| filename := Some name; content := [Byte.x25; Byte.x50; Byte.x44; Byte.x46] |}.

(** An engine that writes one layout file per page into [save_dir] and
    returns the descriptors of pages [0 .. n-1]. *)
Definition page_file (c : EngineCall) (i : nat) : string :=
  path_join (c_save_dir c) (c_filename c +:+ "_page_" +:+ pretty i +:+ ".json").

Definition paged_engine (n : nat) (c : EngineCall) (t : FS)
  : FS * outcome (list descriptor) :=
  (foldr (λ i t', <[page_file c i := File [Byte.x7b; Byte.x7d]]> t') t (seq 0 n),
   Ret (map (λ i, {| layout_info_path := Some (page_file c i);
                     d_page_no := Some (Z.of_nat i) |}) (seq 0 n))).

(** An engine that raises. *)
Definition failing_engine (e : exn) (c : EngineCall) (t : FS)
  : FS * outcome (list descriptor) := (t, Raise e).

(** An engine that returns one page and leaves a sub-directory of
    figures in [save_dir]. *)
Definition cluttering_engine (c : EngineCall) (t : FS)
  : FS * outcome (list descriptor) :=
  (<[path_join (c_save_dir c) "figures" := Dir]> (paged_engine 1 c t).1,
   (paged_engine 1 c t).2).

(** An engine whose four descriptors have no path, point at a file that
    is not JSON, at a good file, and at no file. *)
Definition sloppy_engine (c : EngineCall) (t : FS)
  : FS * outcome (list descriptor) :=
  (<[path_join (c_save_dir c) "p1.json" := File [Byte.x3c; Byte.x3e]]>
     (<[path_join (c_save_dir c) "p2.json" := File [Byte.x32]]> t),
   Ret [ {| layout_info_path := None; d_page_no := Some 7 |};
         {| layout_info_path := Some (path_join (c_save_dir c) "p1.json");
            d_page_no := Some 3 |};
         {| layout_info_path := Some (path_join (c_save_dir c) "p2.json");
            d_page_no := None |};
         {| layout_info_path := Some (path_join (c_save_dir c) "gone.json");
            d_page_no := Some 3 |} ]).

(** The reference environment on a full disk: writes raise. *)
Definition full_disk_env
    (eng : EngineCall → FS → FS * outcome (list descriptor)) : Env :=
  {| http_str := starlette_str;
     suffix_lower := path_suffix_lower;
     tmp_name := λ n, Ret ("/tmp/tmp" +:+ pretty n);
     uuid_hex := "9f1c";
     abspath := λ p, p;
     write_fault := Some (PyException "OSError" "[Errno 28] No space left on device");
     json_load := load;
     engine := eng |}.

(** The reference environment with the older [str] of [HTTPException]. *)
Definition legacy_env
    (eng : EngineCall → FS → FS * outcome (list descriptor)) : Env :=
  {| http_str := legacy_str;
     suffix_lower := path_suffix_lower;
     tmp_name := λ n, Ret ("/tmp/tmp" +:+ pretty n);
     uuid_hex := "9f1c";
     abspath := λ p, p;
     write_fault := None;
     json_load := load;
     engine := eng |}.

Definition default_mode : string := "prompt_layout_all_en".

Definition boom : exn := PyException "RuntimeError" "boom".

Definition image_ws : Workspace :=
  {| temp_dir := "/tmp/tmp0";
     temp_path := "/tmp/tmp0/upload_9f1c.png";
     output_dir := "/tmp/tmp1" |}.

Definition pdf_ws : Workspace :=
  {| temp_dir := "/tmp/tmp0";
     temp_path := "/tmp/tmp0/upload_9f1c.pdf";
     output_dir := "/tmp/tmp1" |}.

(** The response to a three-page PDF with empty layouts. *)
Definition three_pages : ParseResponse :=
  {| success := true;
     total_pages := 3;
     results := [ {| page_no := Some 0; full_layout_info := JObj [] |};
                  {| page_no := Some 1; full_layout_info := JObj [] |};
                  {| page_no := Some 2; full_layout_info := JObj [] |} ] |}.

(** A disk on which an earlier run has left a file under the name that
    the second [mkdtemp] will pick. *)
Definition w_stale : World :=
  {| fs := {[ "/tmp" := Dir; "/tmp/tmp1/old.json" := File [Byte.x31] ]};
     upos := 0; ntmp := 0; calls := [] |}.

(** An engine whose descriptors point at its output directory and at the
    empty path. *)
Definition pathless_engine (c : EngineCall) (t : FS)
  : FS * outcome (list descriptor) :=
  (t, Ret [ {| layout_info_path := Some (c_save_dir c); d_page_no := Some 0 |};
            {| layout_info_path := Some ""; d_page_no := Some 1 |} ]).

End Reference.

Import Reference.

(** * Properties *)

(** ** Stepping through the monad *)

Section Steps.

Context {A B : Type}.

Lemma bind_ret (m : M A) (k : A → M B) w w' a :
  m w = (w', Ret a) → bind m k w = k a w'.
Proof. intros H. unfold bind. by rewrite H. Qed.

Lemma bind_raise (m : M A) (k : A → M B) w w' e :
  m w = (w', Raise e) → bind m k w = (w', Raise e).
Proof. intros H. unfold bind. by rewrite H. Qed.

Lemma bind_inv_ret (m : M A) (k : A → M B) w w' b :
  bind m k w = (w', Ret b) →
  ∃ w1 a, m w = (w1, Ret a) ∧ k a w1 = (w', Ret b).
Proof.
  unfold bind. destruct (m w) as [w1 [e|a]]; [done|]. intros H. by exists w1, a.
Qed.

End Steps.

Lemma catch_all_ret {A} env (m : M A) w w' a :
  m w = (w', Ret a) → catch_all env m w = (w', Ret a).
Proof. intros H. unfold catch_all, try_except. by rewrite H. Qed.

Lemma catch_all_raise {A} env (m : M A) w w' e :
  m w = (w', Raise e) →
  catch_all env m w = (w', Raise (HTTPException 500 (exn_str env e))).
Proof. intros H. unfold catch_all, try_except. by rewrite H. Qed.

Lemma catch_all_ext {A} env (m m' : M A) w :
  m w = m' w → catch_all env m w = catch_all env m' w.
Proof. intros H. unfold catch_all, try_except. by rewrite H. Qed.

Lemma catch_all_inv_ret {A} env (m : M A) w w' a :
  catch_all env m w = (w', Ret a) → m w = (w', Ret a).
Proof.
  unfold catch_all, try_except, raise.
  destruct (m w) as [w1 [e|a1]]; [done|]. by intros [= -> ->].
Qed.

Lemma catch_all_inv_raise {A} env (m : M A) w w' e :
  catch_all env m w = (w', Raise e) →
  ∃ e0, m w = (w', Raise e0) ∧ e = HTTPException 500 (exn_str env e0).
Proof.
  unfold catch_all, try_except, raise.
  destruct (m w) as [w1 [e0|a1]]; [|done]. intros [= -> <-]. by exists e0.
Qed.

(** ** Every failure leaves a handler as a 500 *)

(** Whatever a handler raises has been through its catch-all. *)
Lemma handler_raises_500 r env file pm fp w w' e :
  handler r env file pm fp w = (w', Raise e) →
  ∃ e0, e = HTTPException 500 (exn_str env e0).
Proof.
  destruct r; simpl; unfold parse_image, parse_pdf, parse_file;
    intros H; apply catch_all_inv_raise in H as (e0 & _ & ->); by exists e0.
Qed.

(** The status of a response is 200 or 500, never a 4xx. *)
Lemma post_status r env file pm fp w :
  status (post r env file pm fp w).2 = 200 ∨
  status (post r env file pm fp w).2 = 500.
Proof.
  unfold post. destruct (handler r env file pm fp w) as [w' [e|resp]] eqn:H; simpl.
  - right. apply handler_raises_500 in H as [e0 ->]. done.
  - by left.
Qed.

(** ** The two engine-backed handlers, phase by phase *)

(** Both handlers are: stage, attempt under the [finally], catch all. *)
Lemma handler_phases ep env file pm fp w :
  handler (route_of ep) env file pm fp w =
  catch_all env
    (let* ws := staged ep env file in
     try_finally (attempt ep env ws pm fp) (cleanup ws)) w.
Proof.
  destruct ep; simpl; unfold parse_image, parse_pdf, catch_all, try_except, bind.
  - destruct (validate_image env file w) as [w1 [e|[f ext]]]; [done|].
    destruct (stage_image env f ext w1) as [w2 [e|ws]]; [done|].
    unfold try_finally, ret.
    destruct (run_image env ws pm fp w2) as [w3 [e|[ds info]]];
      destruct (cleanup ws w3) as [w4 [e'|[]]]; done.
  - destruct (validate_pdf env file w) as [w1 [e|f]]; [done|].
    destruct (stage_pdf env f w1) as [w2 [e|ws]]; done.
Qed.

(** The response of a request whose upload was staged in [ws]. *)
Lemma post_staged ep env file pm fp w w2 ws w3 r w4 c :
  staged ep env file w = (w2, Ret ws) →
  attempt ep env ws pm fp w2 = (w3, r) →
  cleanup ws w3 = (w4, c) →
  post (route_of ep) env file pm fp w =
  (w4, respond match c, r with
               | Raise e, _ | Ret _, Raise e =>
                   Raise (HTTPException 500 (exn_str env e))
               | Ret _, Ret resp => Ret resp
               end).
Proof.
  intros Hs Ha Hc. unfold post. rewrite handler_phases.
  unfold catch_all, try_except, bind, try_finally. rewrite Hs, Ha, Hc.
  destruct c as [e|[]], r as [e'|resp]; done.
Qed.

(** ** The engine call *)

Lemma call_engine_inv env c w w' r :
  call_engine env c w = (w', r) →
  engine env c (fs w) = (fs w', r) ∧ calls w' = (calls w ++ [c])%list ∧
  upos w' = upos w ∧ ntmp w' = ntmp w.
Proof.
  unfold call_engine. destruct (engine env c (fs w)) as [t r'].
  by intros [= <- ->].
Qed.

(** ** Reading a layout file *)

Lemma get_fs_spec w : get_fs w = (w, Ret (fs w)).
Proof. done. Qed.

Lemma path_exists_spec p w :
  path_exists p w = (w, Ret (bool_decide (is_Some (fs w !! p)))).
Proof. done. Qed.

(** [read_layout] never raises and leaves the world as it is. *)
Lemma read_layout_spec env d w :
  read_layout env d w = (w, Ret (layout_of env (fs w) d)).
Proof.
  unfold read_layout, layout_of.
  destruct (layout_info_path d) as [[|a p]|]; try done.
  set (q := String a p). unfold bind. rewrite path_exists_spec.
  destruct (fs w !! q) as [[data|]|] eqn:Hq.
  - rewrite bool_decide_eq_true_2 by eauto.
    unfold try_except, load_json_file, bind. rewrite get_fs_spec, Hq.
    by destruct (json_load env data).
  - rewrite bool_decide_eq_true_2 by eauto.
    unfold try_except, load_json_file, bind. by rewrite get_fs_spec, Hq.
  - rewrite bool_decide_eq_false_2; [done|]. by intros [? ?].
Qed.

Lemma layout_of_unusable env t d :
  layout_unusable env t d → layout_of env t d = empty_object.
Proof.
  unfold layout_of.
  intros [H | p H Hp | p data e H Hp He]; rewrite H; try done.
  - destruct p; [done|]. by rewrite Hp.
  - destruct p; [done|]. by rewrite Hp, He.
Qed.

Lemma format_result_spec env d w :
  format_result env d w =
  (w, Ret {| page_no := d_page_no d; full_layout_info := layout_of env (fs w) d |}).
Proof. unfold format_result, bind. by rewrite read_layout_spec. Qed.

(** The loop of [parse_pdf] maps the descriptors one by one, in order. *)
Lemma for_collect_format env ds w :
  for_collect ds (format_result env) w =
  (w, Ret (map (λ d, {| page_no := d_page_no d;
                        full_layout_info := layout_of env (fs w) d |}) ds)).
Proof.
  induction ds as [|d ds IH]; [done|].
  simpl. unfold bind. by rewrite format_result_spec, IH.
Qed.

(** The attempt, given what the engine did. *)
Lemma attempt_pdf_returned env ws pm fp w2 w3 ds :
  call_engine env (pdf_call ws pm) w2 = (w3, Ret ds) →
  attempt EngineParsePdf env ws pm fp w2 =
  (w3, Ret {| success := true;
              total_pages := length ds;
              results := map (λ d, {| page_no := d_page_no d;
                                      full_layout_info := layout_of env (fs w3) d |}) ds |}).
Proof.
  intros H. simpl. unfold run_pdf, bind. by rewrite H, for_collect_format.
Qed.

Lemma attempt_pdf_raised env ws pm fp w2 w3 e :
  call_engine env (pdf_call ws pm) w2 = (w3, Raise e) →
  attempt EngineParsePdf env ws pm fp w2 = (w3, Raise e).
Proof. intros H. simpl. unfold run_pdf, bind. by rewrite H. Qed.

Lemma attempt_image_returned env ws pm fp w2 w3 d ds :
  call_engine env (image_call ws pm fp) w2 = (w3, Ret (d :: ds)) →
  attempt EngineParseImage env ws pm fp w2 =
  (w3, Ret {| success := true;
              total_pages := S (length ds);
              results := [ {| page_no := Some 0;
                              full_layout_info := layout_of env (fs w3) d |} ] |}).
Proof.
  intros H. simpl. unfold run_image, try_except, bind.
  by rewrite H; simpl; rewrite read_layout_spec.
Qed.

Lemma attempt_image_empty env ws pm fp w2 w3 :
  call_engine env (image_call ws pm fp) w2 = (w3, Ret []) →
  attempt EngineParseImage env ws pm fp w2 =
  (w3, Raise (HTTPException 500 "Parser error: list index out of range")).
Proof. intros H. simpl. unfold run_image, try_except, bind. by rewrite H. Qed.

Lemma attempt_image_raised env ws pm fp w2 w3 e :
  call_engine env (image_call ws pm fp) w2 = (w3, Raise e) →
  attempt EngineParseImage env ws pm fp w2 =
  (w3, Raise (HTTPException 500 ("Parser error: " +:+ exn_str env e))).
Proof. intros H. simpl. unfold run_image, try_except, bind. by rewrite H. Qed.

(** ** What a computation may change *)

Section Changes.

Variable R : relation World.
Hypothesis R_refl : Reflexive R.
Hypothesis R_trans : Transitive R.

Lemma changes_ret {A} (a : A) : changes R (ret a).
Proof. by intros w w' r [= <- _]. Qed.

Lemma changes_raise {A} e : changes R (@raise A e).
Proof. by intros w w' r [= <- _]. Qed.

Lemma changes_bind {A B} (m : M A) (k : A → M B) :
  changes R m → (∀ a, changes R (k a)) → changes R (bind m k).
Proof.
  intros Hm Hk w w' r. unfold bind.
  destruct (m w) as [w1 [e|a]] eqn:E; intros H.
  - injection H as <- _. by eapply Hm.
  - etrans; [by eapply Hm | by eapply Hk].
Qed.

Lemma changes_try_except {A} (m : M A) h :
  changes R m → (∀ e, changes R (h e)) → changes R (try_except m h).
Proof.
  intros Hm Hh w w' r. unfold try_except.
  destruct (m w) as [w1 [e|a]] eqn:E; intros H.
  - etrans; [by eapply Hm | by eapply Hh].
  - injection H as <- _. by eapply Hm.
Qed.

Lemma changes_try_finally {A} (m : M A) fin :
  changes R m → changes R fin → changes R (try_finally m fin).
Proof.
  intros Hm Hf w w' r. unfold try_finally.
  destruct (m w) as [w1 r1] eqn:E1. destruct (fin w1) as [w2 [e|u]] eqn:E2;
    intros [= <- _]; (etrans; [by eapply Hm | by eapply Hf]).
Qed.

Lemma changes_for_each {A} (l : list A) f :
  (∀ x, changes R (f x)) → changes R (for_each l f).
Proof.
  intros Hf. induction l as [|x l IH]; simpl.
  - apply changes_ret.
  - apply changes_bind; [apply Hf | by intros _].
Qed.

Lemma changes_for_collect {A B} (l : list A) (f : A → M B) :
  (∀ x, changes R (f x)) → changes R (for_collect l f).
Proof.
  intros Hf. induction l as [|x l IH]; simpl.
  - apply changes_ret.
  - apply changes_bind; [apply Hf | intros y].
    apply changes_bind; [apply IH | intros ys; apply changes_ret].
Qed.

Lemma changes_raise_if c e : changes R (raise_if c e).
Proof. destruct c; [apply changes_raise | apply changes_ret]. Qed.

Lemma changes_get_fs : changes R get_fs.
Proof. by intros w w' r [= <- _]. Qed.

Lemma changes_index0 {A} (l : list A) : changes R (index0 l).
Proof. destruct l; [apply changes_raise | apply changes_ret]. Qed.

End Changes.

(** Break a goal [changes R m] down along the structure of [m]; what is
    left are the primitive calls. *)
Ltac changes_step :=
  first
    [ apply changes_ret | apply changes_raise | apply changes_raise_if
    | apply changes_get_fs | apply changes_index0
    | apply changes_bind | apply changes_try_except | apply changes_try_finally
    | apply changes_for_each | apply changes_for_collect
    | match goal with
      | |- changes _ (match ?x with _ => _ end) => destruct x
      end
    | progress intros ].

Ltac changes_auto := repeat (changes_step; try assumption).

(** *** The engine-call log *)

#[local] Instance same_calls_refl : Reflexive same_calls.
Proof. by intros w. Qed.

#[local] Instance same_calls_trans : Transitive same_calls.
Proof. unfold same_calls. intros w1 w2 w3 H1 H2. by rewrite H2. Qed.

Lemma set_fs_same_calls t : changes same_calls (set_fs t).
Proof. by intros w w' r [= <- _]. Qed.

Lemma path_exists_same_calls p : changes same_calls (path_exists p).
Proof. by intros w w' r [= <- _]. Qed.

Lemma listdir_same_calls d : changes same_calls (listdir d).
Proof. unfold listdir. changes_auto; apply _. Qed.

Lemma remove_same_calls p : changes same_calls (remove p).
Proof. unfold remove. changes_auto; try apply _; apply set_fs_same_calls. Qed.

Lemma rmdir_same_calls d : changes same_calls (rmdir d).
Proof. unfold rmdir. changes_auto; try apply _; apply set_fs_same_calls. Qed.

Lemma mkdtemp_same_calls env : changes same_calls (mkdtemp env).
Proof.
  intros w w' r. unfold mkdtemp.
  destruct (tmp_name env (ntmp w)) as [e|d]; [by intros [= <- _]|].
  destruct (fs w !! d); by intros [= <- _].
Qed.

Lemma open_wb_same_calls p : changes same_calls (open_wb p).
Proof. unfold open_wb. changes_auto; try apply _; apply set_fs_same_calls. Qed.

Lemma buffer_write_same_calls env p data :
  changes same_calls (buffer_write env p data).
Proof. unfold buffer_write. changes_auto; try apply _; apply set_fs_same_calls. Qed.

Lemma load_json_file_same_calls env p : changes same_calls (load_json_file env p).
Proof. unfold load_json_file. changes_auto; apply _. Qed.

Lemma upload_read_same_calls f : changes same_calls (upload_read f).
Proof. by intros w w' r [= <- _]. Qed.

Lemma upload_seek0_same_calls : changes same_calls upload_seek0.
Proof. by intros w w' r [= <- _]. Qed.

Ltac same_calls_auto :=
  repeat first
    [ changes_step
    | apply set_fs_same_calls | apply path_exists_same_calls
    | apply listdir_same_calls | apply remove_same_calls
    | apply rmdir_same_calls | apply mkdtemp_same_calls
    | apply open_wb_same_calls | apply buffer_write_same_calls
    | apply load_json_file_same_calls
    | apply upload_read_same_calls | apply upload_seek0_same_calls
    | apply same_calls_refl | apply same_calls_trans ].

Lemma checked_content_same_calls f : changes same_calls (checked_content f).
Proof. unfold checked_content. same_calls_auto. Qed.

Lemma validate_image_same_calls env file :
  changes same_calls (validate_image env file).
Proof.
  unfold validate_image, checked_file, checked_filename, checked_suffix,
    checked_content.
  same_calls_auto.
Qed.

Lemma validate_pdf_same_calls env file :
  changes same_calls (validate_pdf env file).
Proof.
  unfold validate_pdf, checked_file, checked_filename, checked_suffix,
    checked_content.
  same_calls_auto.
Qed.

Lemma fresh_output_dir_same_calls env : changes same_calls (fresh_output_dir env).
Proof. unfold fresh_output_dir. same_calls_auto. Qed.

Lemma stage_image_same_calls env f ext :
  changes same_calls (stage_image env f ext).
Proof. unfold stage_image, fresh_output_dir. same_calls_auto. Qed.

Lemma stage_pdf_same_calls env f : changes same_calls (stage_pdf env f).
Proof. unfold stage_pdf, fresh_output_dir. same_calls_auto. Qed.

Lemma staged_same_calls ep env file : changes same_calls (staged ep env file).
Proof.
  destruct ep; simpl.
  - apply changes_bind; try apply _; [apply validate_image_same_calls|].
    intros [f ext]. apply stage_image_same_calls.
  - apply changes_bind; try apply _; [apply validate_pdf_same_calls|].
    intros f. apply stage_pdf_same_calls.
Qed.

Lemma cleanup_same_calls ws : changes same_calls (cleanup ws).
Proof. unfold cleanup. same_calls_auto. Qed.

(** *** The file system under cleanup *)

Lemma children_elem (t : FS) d n :
  n ∈ children t d ↔ ∃ k, is_Some (t !! k) ∧ child_name d k = Some n.
Proof.
  unfold children. rewrite list_elem_of_omap. split.
  - intros (k & Hk & Hn). exists k. split; [|done].
    apply list_elem_of_fmap in Hk as ([k' v] & -> & Hkv).
    apply elem_of_map_to_list in Hkv. by exists v.
  - intros (k & [v Hv] & Hn). exists k. split; [|done].
    apply list_elem_of_fmap. exists (k, v). split; [done|].
    by apply elem_of_map_to_list.
Qed.

(** A smaller file system lists no more entries. *)
Lemma children_empty_mono (t t' : FS) d :
  t' ⊆ t → children t d = [] → children t' d = [].
Proof.
  intros Hsub He. destruct (children t' d) as [|n l] eqn:E; [done|].
  assert (n ∈ children t d) as Hn.
  { apply children_elem.
    assert (n ∈ children t' d) as (k & [v Hv] & Hk)%children_elem
      by (rewrite E; left).
    exists k. split; [|done]. exists v. by eapply lookup_weaken. }
  rewrite He in Hn. by apply elem_of_nil in Hn.
Qed.

#[local] Instance shrinks_refl : Reflexive shrinks.
Proof. intros w. unfold shrinks. reflexivity. Qed.

#[local] Instance shrinks_trans : Transitive shrinks.
Proof. unfold shrinks. intros w1 w2 w3 H1 H2. by etrans. Qed.

Lemma path_exists_shrinks p : changes shrinks (path_exists p).
Proof. by intros w w' r [= <- _]. Qed.

Lemma listdir_shrinks d : changes shrinks (listdir d).
Proof. unfold listdir. changes_auto; apply _. Qed.

Lemma set_fs_delete_shrinks p w w' r :
  set_fs (delete p (fs w)) w = (w', r) → shrinks w w'.
Proof. intros [= <- _]. apply delete_subseteq. Qed.

Lemma remove_shrinks p : changes shrinks (remove p).
Proof.
  intros w w' r. unfold remove, bind. rewrite get_fs_spec.
  destruct (fs w !! p) as [[data|]|]; try by intros [= <- _].
  apply set_fs_delete_shrinks.
Qed.

Lemma rmdir_shrinks d : changes shrinks (rmdir d).
Proof.
  intros w w' r. unfold rmdir, bind. rewrite get_fs_spec.
  destruct (fs w !! d) as [[data|]|]; try by intros [= <- _].
  destruct (children (fs w) d); [|by intros [= <- _]].
  apply set_fs_delete_shrinks.
Qed.

Lemma remove_all_shrinks d names :
  changes shrinks (for_each names (λ f, remove (path_join d f))).
Proof. apply changes_for_each; try apply _. intros n. apply remove_shrinks. Qed.

(** What a successful [os.remove] and [os.rmdir] did. *)
Lemma remove_ret p w w' u :
  remove p w = (w', Ret u) → fs w' = delete p (fs w).
Proof.
  unfold remove, bind. rewrite get_fs_spec.
  destruct (fs w !! p) as [[data|]|]; try done. by intros [= <- _].
Qed.

Lemma rmdir_ret d w w' u :
  rmdir d w = (w', Ret u) →
  children (fs w) d = [] ∧ fs w' = delete d (fs w).
Proof.
  unfold rmdir, bind. rewrite get_fs_spec.
  destruct (fs w !! d) as [[data|]|]; try done.
  destruct (children (fs w) d); [|done]. by intros [= <- _].
Qed.

(** [if os.path.exists(p): os.remove(p)] *)
Lemma guarded_remove_ret p w w' u :
  (let* e := path_exists p in if e then remove p else ret tt) w = (w', Ret u) →
  fs w' = delete p (fs w) ∧ fs w !! p ≠ Some Dir.
Proof.
  unfold bind. rewrite path_exists_spec. case_bool_decide as Hp.
  - unfold remove, bind. rewrite get_fs_spec.
    destruct (fs w !! p) as [[data|]|]; try done. by intros [= <- _].
  - intros [= <- _]. apply eq_None_not_Some in Hp.
    split; [by rewrite delete_id | by rewrite Hp].
Qed.

(** [if os.path.exists(d): os.rmdir(d)] *)
Lemma guarded_rmdir_ret d w w' u :
  (let* e := path_exists d in if e then rmdir d else ret tt) w = (w', Ret u) →
  fs w' = delete d (fs w) ∧ (is_Some (fs w !! d) → children (fs w) d = []).
Proof.
  unfold bind. rewrite path_exists_spec. case_bool_decide as Hd.
  - intros H. by apply rmdir_ret in H as [Hc Hf].
  - intros [= <- _]. apply eq_None_not_Some in Hd as Hd'.
    split; [by rewrite delete_id | done].
Qed.

(** Lines 129-132 and 219-222: the output directory and its entries. *)
Lemma clear_output_ret d w w' u :
  (let* e := path_exists d in
   if e
   then let* names := listdir d in
        for_each names (λ f, remove (path_join d f)) >> rmdir d
   else ret tt) w = (w', Ret u) →
  fs w' !! d = None ∧ shrinks w w' ∧
  (is_Some (fs w !! d) → children (fs w') d = []).
Proof.
  unfold bind at 1. rewrite path_exists_spec. case_bool_decide as Hd.
  - intros H.
    apply bind_inv_ret in H as (w1 & names & Hl & H).
    apply bind_inv_ret in H as (w2 & [] & Hr & H).
    pose proof (listdir_shrinks _ _ _ _ Hl) as S1.
    pose proof (remove_all_shrinks _ _ _ _ _ Hr) as S2.
    pose proof (rmdir_shrinks _ _ _ _ H) as S3.
    apply rmdir_ret in H as [Hc Hf].
    split; [rewrite Hf; apply lookup_delete_eq|].
    split; [by etrans; [|etrans]|].
    intros _. eapply children_empty_mono; [|exact Hc]. exact S3.
  - intros [= <- _]. split; [by apply eq_None_not_Some|]. done.
Qed.

Lemma bind_assoc {A B C} (m : M A) (k : A → M B) (h : B → M C) w :
  bind (bind m k) h w = bind m (λ a, bind (k a) h) w.
Proof. unfold bind. by destruct (m w) as [w1 [e|a]]. Qed.

(** A cleanup that completes has removed the temp file, the input
    directory and the output directory, and nothing else came into
    being; if the output directory was there, none of its entries is
    left. *)
Lemma cleanup_ret ws w w' u :
  cleanup ws w = (w', Ret u) →
  fs w' !! temp_path ws = None ∧
  fs w' !! temp_dir ws = None ∧
  fs w' !! output_dir ws = None ∧
  shrinks w w' ∧
  (fs w !! output_dir ws = Some Dir → children (fs w') (output_dir ws) = []).
Proof.
  unfold cleanup. rewrite <- bind_assoc. intros H.
  apply bind_inv_ret in H as (w1 & [] & H1 & H).
  rewrite <- bind_assoc in H.
  apply bind_inv_ret in H as (w2 & [] & H2 & H3).
  apply guarded_remove_ret in H1 as [F1 N1].
  apply guarded_rmdir_ret in H2 as [F2 C2].
  apply clear_output_ret in H3 as (P3 & S3 & C3).
  unfold shrinks in *.
  assert (fs w2 ⊆ fs w1) as S2 by (rewrite F2; apply delete_subseteq).
  assert (fs w1 ⊆ fs w) as S1 by (rewrite F1; apply delete_subseteq).
  split.
  { eapply lookup_weaken_None; [|by etrans].
    rewrite F1. apply lookup_delete_eq. }
  split.
  { eapply lookup_weaken_None; [|done]. rewrite F2. apply lookup_delete_eq. }
  split; [done|].
  split; [by etrans; [|etrans]|].
  intros Hd.
  assert (fs w1 !! output_dir ws = Some Dir) as Hd1.
  { rewrite F1, lookup_delete_ne; [done|]. intros Heq. by rewrite Heq in N1. }
  destruct (decide (temp_dir ws = output_dir ws)) as [Heq|Hne].
  - eapply children_empty_mono; [by etrans|].
    rewrite <- Heq. apply C2. rewrite Heq. eauto.
  - apply C3. rewrite F2, lookup_delete_ne by done. eauto.
Qed.

(** *** When the cleanup completes *)

Lemma strip_prefix_Some p s r : strip_prefix p s = Some r → s = p +:+ r.
Proof.
  revert s. induction p as [|a p IH]; intros s; simpl.
  - by intros [= ->].
  - destruct s as [|b s]; [done|].
    destruct (Ascii.eqb_spec a b) as [->|]; [|done].
    intros H. by rewrite (IH _ H).
Qed.

Lemma strip_prefix_app p r : strip_prefix p (p +:+ r) = Some r.
Proof.
  induction p as [|a p IH]; simpl; [done|]. by rewrite Ascii.eqb_refl.
Qed.

Lemma has_slash_starts s : has_slash s = false → starts_with_slash s = false.
Proof.
  destruct s as [|a s]; [done|]. simpl.
  destruct (Ascii.eqb_spec a "/"%char) as [->|Hne]; [done|]. intros _.
  by destruct a as [[] [] [] [] [] [] [] []].
Qed.

Lemma child_name_Some d k n :
  child_name d k = Some n → k = path_join d n ∧ n ≠ "" ∧ has_slash n = false.
Proof.
  unfold child_name, path_join.
  destruct (strip_prefix (dir_prefix d) k) as [r|] eqn:E; [|done].
  destruct (String.eqb_spec r "") as [->|Hne]; [done|]. simpl.
  destruct (has_slash r) eqn:Hs; [done|]. intros [= <-].
  rewrite (has_slash_starts _ Hs). by apply strip_prefix_Some in E.
Qed.

Lemma child_name_join d n :
  n ≠ "" → has_slash n = false → child_name d (path_join d n) = Some n.
Proof.
  intros Hne Hs. unfold child_name, path_join.
  rewrite (has_slash_starts _ Hs), strip_prefix_app, Hs.
  by destruct (String.eqb_spec n "").
Qed.

Lemma string_length_app a b :
  String.length (a +:+ b) = (String.length a + String.length b)%nat.
Proof. induction a as [|c a IH]; simpl; [done|]. by rewrite IH. Qed.

(** A directory is not one of its own entries. *)
Lemma child_name_self d : child_name d d = None.
Proof.
  destruct (child_name d d) as [n|] eqn:E; [|done].
  apply child_name_Some in E as (E & Hne & Hs). exfalso.
  unfold path_join in E. rewrite (has_slash_starts _ Hs) in E.
  apply (f_equal String.length) in E. unfold dir_prefix in E.
  destruct n as [|c n]; [done|].
  destruct (String.eqb d "" || ends_with_slash d);
    rewrite !string_length_app in E; simpl in E; lia.
Qed.

Lemma NoDup_omap_inj {A B} (f : A → option B) (l : list A) :
  (∀ x y z, f x = Some z → f y = Some z → x = y) →
  NoDup l → NoDup (omap f l).
Proof.
  intros Hf. induction 1 as [|x l Hx Hl IH]; simpl; [constructor|].
  destruct (f x) as [z|] eqn:E; [|done]. constructor; [|done].
  intros (y & Hy & Ey)%list_elem_of_omap.
  by rewrite (Hf x y z E Ey) in Hx.
Qed.

Lemma children_NoDup (t : FS) d : NoDup (children t d).
Proof.
  apply NoDup_omap_inj; [|apply NoDup_fst_map_to_list].
  intros k1 k2 n (-> & _)%child_name_Some (-> & _)%child_name_Some. done.
Qed.

(** Removing listed entries one by one: every one of them is a file when
    its turn comes, and afterwards they are gone. *)
Lemma remove_all_ok d names w :
  NoDup names →
  (∀ n, n ∈ names → n ≠ "" ∧ has_slash n = false ∧
                    ∃ data, fs w !! path_join d n = Some (File data)) →
  ∃ w', for_each names (λ f, remove (path_join d f)) w = (w', Ret tt) ∧
        ∀ k, fs w' !! k =
             if bool_decide (k ∈ path_join d <$> names) then None else fs w !! k.
Proof.
  intros Hnd. revert w. induction Hnd as [|n names Hn Hnd IH]; intros w Hf.
  - exists w. split; [done|]. intros k. by rewrite bool_decide_eq_false_2
      by (simpl; apply not_elem_of_nil).
  - destruct (Hf n) as (Hne & Hs & data & Hd); [left|].
    set (w1 := {| fs := delete (path_join d n) (fs w); upos := upos w;
                  ntmp := ntmp w; calls := calls w |}).
    assert (remove (path_join d n) w = (w1, Ret tt)) as Hr.
    { unfold remove, bind. rewrite get_fs_spec, Hd. done. }
    destruct (IH w1) as (w' & Hw' & Hk).
    { intros m Hm. destruct (Hf m) as (Hmne & Hms & mdata & Hmd); [by right|].
      split; [done|]. split; [done|]. exists mdata. simpl.
      rewrite lookup_delete_ne; [done|]. intros Heq.
      assert (child_name d (path_join d n) = child_name d (path_join d m)) as Hc
        by (by rewrite Heq).
      rewrite !child_name_join in Hc by done. injection Hc as ->. done. }
    exists w'. split.
    { simpl. by rewrite (bind_ret _ _ _ _ _ Hr). }
    intros k. rewrite Hk. change (fs w1) with (delete (path_join d n) (fs w)).
    rewrite fmap_cons.
    destruct (decide (k = path_join d n)) as [->|Hkn].
    + rewrite lookup_delete_eq.
      rewrite (bool_decide_eq_true_2 (_ ∈ _ :: _)) by left.
      by case_bool_decide.
    + rewrite lookup_delete_ne by done.
      destruct (decide (k ∈ path_join d <$> names)) as [Hin|Hnin].
      * rewrite (bool_decide_eq_true_2 _ Hin).
        by rewrite bool_decide_eq_true_2 by (by right).
      * rewrite (bool_decide_eq_false_2 _ Hnin).
        rewrite bool_decide_eq_false_2; [done|].
        rewrite elem_of_cons. by intros [?|?].
Qed.

Lemma guarded_remove_ok p w :
  fs w !! p ≠ Some Dir →
  ∃ w', (let* e := path_exists p in if e then remove p else ret tt) w
        = (w', Ret tt) ∧ fs w' = delete p (fs w).
Proof.
  intros Hp. unfold bind. rewrite path_exists_spec.
  destruct (fs w !! p) as [[data|]|] eqn:E; [|done|].
  - rewrite bool_decide_eq_true_2 by eauto.
    unfold remove, bind. rewrite get_fs_spec, E. by eexists.
  - rewrite bool_decide_eq_false_2 by (by intros [? ?]).
    exists w. by rewrite delete_id.
Qed.

Lemma guarded_rmdir_ok d w :
  (∀ data, fs w !! d ≠ Some (File data)) →
  children (fs w) d = [] →
  ∃ w', (let* e := path_exists d in if e then rmdir d else ret tt) w
        = (w', Ret tt) ∧ fs w' = delete d (fs w).
Proof.
  intros Hd Hc. unfold bind. rewrite path_exists_spec.
  destruct (fs w !! d) as [[data|]|] eqn:E; [by destruct (Hd data)| |].
  - rewrite bool_decide_eq_true_2 by eauto.
    unfold rmdir, bind. rewrite get_fs_spec, E, Hc. by eexists.
  - rewrite bool_decide_eq_false_2 by (by intros [? ?]).
    exists w. by rewrite delete_id.
Qed.

Lemma clear_output_ok d w :
  (∀ data, fs w !! d ≠ Some (File data)) →
  (∀ k, is_Some (child_name d k) → fs w !! k ≠ Some Dir) →
  ∃ w', (let* e := path_exists d in
         if e
         then let* names := listdir d in
              for_each names (λ f, remove (path_join d f)) >> rmdir d
         else ret tt) w = (w', Ret tt).
Proof.
  intros Hd Hc. unfold bind at 1. rewrite path_exists_spec.
  destruct (fs w !! d) as [[data|]|] eqn:E; [by destruct (Hd data)| |].
  - rewrite bool_decide_eq_true_2 by eauto.
    assert (listdir d w = (w, Ret (children (fs w) d))) as Hl.
    { unfold listdir, bind. by rewrite get_fs_spec, E. }
    rewrite (bind_ret _ _ _ _ _ Hl).
    destruct (remove_all_ok d (children (fs w) d) w) as (w1 & Hr & Hk).
    { apply children_NoDup. }
    { intros n (k & [v Hv] & Hn)%children_elem.
      pose proof (Hc k ltac:(eauto)) as Hnd.
      apply child_name_Some in Hn as (-> & Hne & Hs).
      split; [done|]. split; [done|].
      destruct v as [data|]; [by exists data|done]. }
    rewrite (bind_ret _ _ _ _ _ Hr).
    assert (fs w1 !! d = Some Dir) as Hd1.
    { rewrite Hk. rewrite bool_decide_eq_false_2; [done|].
      intros (n & Hdn & Hn)%list_elem_of_fmap.
      apply children_elem in Hn as (k & _ & Hn).
      apply child_name_Some in Hn as (_ & Hne & Hs).
      pose proof (child_name_join d n Hne Hs) as Hj.
      rewrite <- Hdn, child_name_self in Hj. done. }
    assert (children (fs w1) d = []) as Hc1.
    { destruct (children (fs w1) d) as [|n l] eqn:El; [done|]. exfalso.
      assert (n ∈ children (fs w1) d) as (k & [v Hv] & Hn)%children_elem
        by (rewrite El; left).
      rewrite Hk in Hv. case_bool_decide as Hin; [done|]. apply Hin.
      apply list_elem_of_fmap. exists n.
      split; [by apply child_name_Some in Hn as (-> & _)|].
      apply children_elem. exists k. split; [eauto|done]. }
    unfold rmdir, bind. rewrite get_fs_spec, Hd1, Hc1. by eexists.
  - rewrite bool_decide_eq_false_2 by (by intros [? ?]). by exists w.
Qed.

(** On a tidy workspace the cleanup completes. *)
Lemma cleanup_completes ws w :
  tidy ws (fs w) → ∃ w', cleanup ws w = (w', Ret tt).
Proof.
  intros (T1 & T2 & T3 & T4 & T5). unfold cleanup.
  destruct (guarded_remove_ok _ _ T1) as (w1 & H1 & F1).
  rewrite <- bind_assoc, (bind_ret _ _ _ _ _ H1).
  destruct (guarded_rmdir_ok (temp_dir ws) w1) as (w2 & H2 & F2).
  { intros data. rewrite F1. intros Hl.
    apply lookup_delete_Some in Hl as [_ Hl]. by destruct (T2 data). }
  { destruct (children (fs w1) (temp_dir ws)) as [|n l] eqn:El; [done|]. exfalso.
    assert (n ∈ children (fs w1) (temp_dir ws)) as (k & [v Hv] & Hn)%children_elem
      by (rewrite El; left).
    rewrite F1 in Hv. apply lookup_delete_Some in Hv as [Hne Hv].
    apply Hne. symmetry. apply T3; eauto. }
  rewrite <- bind_assoc, (bind_ret _ _ _ _ _ H2).
  apply clear_output_ok.
  - intros data. rewrite F2, F1. intros Hl.
    apply lookup_delete_Some in Hl as [_ Hl].
    apply lookup_delete_Some in Hl as [_ Hl]. by destruct (T4 data).
  - intros k Hk. rewrite F2, F1. intros Hl.
    apply lookup_delete_Some in Hl as [_ Hl].
    apply lookup_delete_Some in Hl as [_ Hl]. by destruct (T5 k Hk).
Qed.

(** *** When the staging completes *)

Lemma mkdtemp_ok env w d :
  tmp_name env (ntmp w) = Ret d → fs w !! d = None →
  mkdtemp env w =
  ({| fs := <[d := Dir]> (fs w); upos := upos w; ntmp := S (ntmp w);
      calls := calls w |}, Ret d).
Proof. intros Hn Hd. unfold mkdtemp. by rewrite Hn, Hd. Qed.

Lemma open_wb_ok p w :
  fs w !! p ≠ Some Dir →
  open_wb p w =
  ({| fs := <[p := File []]> (fs w); upos := upos w; ntmp := ntmp w;
      calls := calls w |}, Ret tt).
Proof.
  intros Hp. unfold open_wb, bind. rewrite get_fs_spec.
  by destruct (fs w !! p) as [[data|]|].
Qed.

Lemma buffer_write_ok env p data w :
  write_fault env = None →
  buffer_write env p data w =
  ({| fs := <[p := File data]> (fs w); upos := upos w; ntmp := ntmp w;
      calls := calls w |}, Ret tt).
Proof. intros Hw. unfold buffer_write. by rewrite Hw. Qed.

(** An entry that is not in [d] does not show in the listing of [d]. *)
Lemma children_insert_empty (t : FS) d k v :
  child_name d k = None → children t d = [] → children (<[k := v]> t) d = [].
Proof.
  intros Hk He. destruct (children (<[k := v]> t) d) as [|n l] eqn:E; [done|].
  exfalso.
  assert (n ∈ children (<[k := v]> t) d) as (k' & Hs & Hn)%children_elem
    by (rewrite E; left).
  assert (k' ≠ k) as Hne by (intros ->; by rewrite Hk in Hn).
  rewrite lookup_insert_ne in Hs by done.
  assert (n ∈ children t d) as Hin by (apply children_elem; eauto).
  rewrite He in Hin. by apply elem_of_nil in Hin.
Qed.

Lemma fresh_output_dir_ok env w d :
  tmp_name env (ntmp w) = Ret d → fs w !! d = None → children (fs w) d = [] →
  fresh_output_dir env w =
  ({| fs := <[d := Dir]> (fs w); upos := upos w; ntmp := S (ntmp w);
      calls := calls w |}, Ret d).
Proof.
  intros Hn Hd Hc. unfold fresh_output_dir.
  rewrite (bind_ret _ _ _ _ _ (mkdtemp_ok _ _ _ Hn Hd)).
  unfold listdir. unfold bind. rewrite get_fs_spec. simpl.
  rewrite lookup_insert_eq.
  by rewrite (children_insert_empty _ _ _ _ (child_name_self d) Hc).
Qed.

Lemma stage_image_ok env f ext w ws :
  fresh_workspace env w ws →
  temp_path ws = path_join (temp_dir ws) ("upload_" +:+ uuid_hex env +:+ ext) →
  abspath env (temp_path ws) = temp_path ws →
  stage_image env f ext w = (staged_world w f ws, Ret ws).
Proof.
  intros (N1 & N2 & Hw & F1 & D1 & F2 & D2 & D3 & F3 & C & C1 & C2) Hp Ha.
  unfold stage_image.
  rewrite (bind_ret _ _ _ _ _ (mkdtemp_ok _ _ _ N1 F1)). rewrite <- Hp.
  erewrite bind_ret; [|reflexivity].
  erewrite bind_ret;
    [|apply open_wb_ok; simpl; by rewrite lookup_insert_ne, ?F2].
  erewrite bind_ret; [|by apply buffer_write_ok]. simpl.
  rewrite insert_insert_eq.
  erewrite bind_ret; [|apply path_exists_spec]. simpl.
  rewrite lookup_insert_eq, bool_decide_eq_true_2 by eauto. simpl.
  erewrite bind_ret; [|reflexivity].
  erewrite bind_ret; [|apply path_exists_spec]. simpl.
  rewrite Ha, lookup_insert_eq, bool_decide_eq_true_2 by eauto. simpl.
  erewrite bind_ret; [|reflexivity].
  erewrite bind_ret.
  2:{ apply fresh_output_dir_ok; simpl.
      - exact N2.
      - by rewrite !lookup_insert_ne.
      - by do 2 (apply children_insert_empty; [done|]). }
  unfold ret, staged_world. simpl. by destruct ws.
Qed.

Lemma stage_pdf_ok env f w ws :
  fresh_workspace env w ws →
  temp_path ws = path_join (temp_dir ws) ("upload_" +:+ uuid_hex env +:+ ".pdf") →
  stage_pdf env f w = (staged_world w f ws, Ret ws).
Proof.
  intros (N1 & N2 & Hw & F1 & D1 & F2 & D2 & D3 & F3 & C & C1 & C2) Hp.
  unfold stage_pdf.
  rewrite (bind_ret _ _ _ _ _ (mkdtemp_ok _ _ _ N1 F1)). rewrite <- Hp.
  erewrite bind_ret;
    [|apply open_wb_ok; simpl; by rewrite lookup_insert_ne, ?F2].
  erewrite bind_ret; [|reflexivity].
  erewrite bind_ret; [|by apply buffer_write_ok]. simpl.
  rewrite insert_insert_eq.
  erewrite bind_ret.
  2:{ apply fresh_output_dir_ok; simpl.
      - exact N2.
      - by rewrite !lookup_insert_ne.
      - by do 2 (apply children_insert_empty; [done|]). }
  unfold ret, staged_world. simpl. by destruct ws.
Qed.

(** ** Valid uploads *)

Lemma checked_filename_ok f name w :
  filename f = Some name → name ≠ "" → checked_filename f w = (w, Ret name).
Proof. unfold checked_filename. intros -> H. by destruct name. Qed.

Lemma checked_content_ok f w :
  drop (upos w) (content f) ≠ [] → checked_content f w = (rewound w, Ret tt).
Proof.
  intros H. unfold checked_content, bind, upload_read, raise_if. simpl.
  by rewrite bool_decide_eq_false_2.
Qed.

Lemma validate_image_ok env file w f ext :
  valid_upload image_exts env file w f ext →
  validate_image env file w = (rewound w, Ret (f, ext)).
Proof.
  intros (-> & name & Hn & Hne & Hs & Hin & Hc).
  unfold validate_image.
  erewrite bind_ret; [|reflexivity].
  erewrite bind_ret; [|by apply checked_filename_ok].
  erewrite bind_ret; [|unfold checked_suffix; by rewrite Hs].
  erewrite bind_ret; [|by rewrite Hin].
  erewrite bind_ret; [|by apply checked_content_ok].
  done.
Qed.

Lemma validate_pdf_ok env file w f :
  valid_upload [".pdf"] env file w f ".pdf" →
  validate_pdf env file w = (rewound w, Ret f).
Proof.
  intros (-> & name & Hn & Hne & Hs & Hin & Hc).
  unfold validate_pdf.
  erewrite bind_ret; [|reflexivity].
  erewrite bind_ret; [|by apply checked_filename_ok].
  erewrite bind_ret; [|unfold checked_suffix; by rewrite Hs].
  erewrite bind_ret; [|reflexivity].
  erewrite bind_ret; [|by apply checked_content_ok].
  done.
Qed.

(** ** Successful requests *)

(** A 200 response is a returned dict. *)
Lemma post_ok_inv r env file pm fp w w' p :
  post r env file pm fp w = (w', {| status := 200; payload := p |}) →
  ∃ resp, p = ParseBody resp ∧ handler r env file pm fp w = (w', Ret resp).
Proof.
  unfold post.
  destruct (handler r env file pm fp w) as [w1 [e|resp]] eqn:H; simpl.
  - apply handler_raises_500 in H as [e0 ->]. simpl. intros H. by inversion H.
  - intros [= -> <-]. by exists resp.
Qed.

Lemma try_finally_inv_ret {A} (m : M A) fin w w' a :
  try_finally m fin w = (w', Ret a) →
  ∃ w1, m w = (w1, Ret a) ∧ fin w1 = (w', Ret tt).
Proof.
  unfold try_finally. destruct (m w) as [w1 r].
  destruct (fin w1) as [w2 [e|[]]] eqn:Hf; [done|]. intros [= -> ->]. by exists w1.
Qed.

(** A request that succeeds went through all the phases. *)
Lemma handler_ok_inv ep env file pm fp w w' resp :
  handler (route_of ep) env file pm fp w = (w', Ret resp) →
  ∃ w2 ws w3,
    staged ep env file w = (w2, Ret ws) ∧
    attempt ep env ws pm fp w2 = (w3, Ret resp) ∧
    cleanup ws w3 = (w', Ret tt).
Proof.
  rewrite handler_phases. intros H%catch_all_inv_ret.
  apply bind_inv_ret in H as (w2 & ws & Hs & H).
  apply try_finally_inv_ret in H as (w3 & Ha & Hc).
  by exists w2, ws, w3.
Qed.

(** ** Page entries of a PDF response *)

Lemma run_pdf_inv env ws pm w2 w3 resp :
  run_pdf env ws pm w2 = (w3, Ret resp) →
  ∃ ds, call_engine env (pdf_call ws pm) w2 = (w3, Ret ds) ∧
        resp = {| success := true;
                  total_pages := length ds;
                  results := map (λ d, {| page_no := d_page_no d;
                                          full_layout_info := layout_of env (fs w3) d |}) ds |}.
Proof.
  unfold run_pdf. intros H.
  apply bind_inv_ret in H as (w2' & ds & Hc & H).
  unfold bind in H. rewrite for_collect_format in H.
  injection H as <- <-. by exists ds.
Qed.

(** Claim C7.  A successful /parse/pdf request made one engine call: the
    call of [pdf_call] for the workspace [ws] in which this request
    staged its upload, on the world [w2] that the staging left.  With
    [ds] the descriptors that call returned, the response has
    [success = true] and [total_pages = len(ds)], and [results] has one
    entry per descriptor, in the engine's order, each with the page number
    of its descriptor. *)
Theorem pdf_pages_follow_engine_order env file pm fp w w' resp :
  post ParsePdfRoute env file pm fp w =
    (w', {| status := 200; payload := ParseBody resp |}) →
  ∃ w2 ws w3 ds,
    staged EngineParsePdf env file w = (w2, Ret ws) ∧
    call_engine env (pdf_call ws pm) w2 = (w3, Ret ds) ∧
    cleanup ws w3 = (w', Ret tt) ∧
    calls w' = (calls w ++ [pdf_call ws pm])%list ∧
    success resp = true ∧
    total_pages resp = length ds ∧
    length (results resp) = length ds ∧
    map page_no (results resp) = map d_page_no ds.
Proof.
  intros H. apply post_ok_inv in H as (resp' & [= <-] & H).
  apply (handler_ok_inv EngineParsePdf) in H as (w2 & ws & w3 & Hs & Ha & Hc).
  apply run_pdf_inv in Ha as (ds & He & ->).
  exists w2, ws, w3, ds. do 3 (split; [done|]). split.
  - apply cleanup_same_calls in Hc. apply staged_same_calls in Hs.
    apply call_engine_inv in He as (_ & He & _).
    unfold same_calls in *. by rewrite Hc, He, Hs.
  - simpl. rewrite length_map, map_map. done.
Qed.

(** The three-page example of the specification. *)
Lemma pdf_pages_follow_engine_order_witness :
  ∃ w2 ws w3 ds,
    staged EngineParsePdf (env_with (paged_engine 3))
      (Some (upload "doc.pdf")) w0 = (w2, Ret ws) ∧
    call_engine (env_with (paged_engine 3)) (pdf_call ws default_mode) w2
      = (w3, Ret ds) ∧
    cleanup ws w3
      = ((post ParsePdfRoute (env_with (paged_engine 3))
            (Some (upload "doc.pdf")) default_mode false w0).1, Ret tt) ∧
    calls (post ParsePdfRoute (env_with (paged_engine 3))
             (Some (upload "doc.pdf")) default_mode false w0).1
      = (calls w0 ++ [pdf_call ws default_mode])%list ∧
    success three_pages = true ∧
    total_pages three_pages = length ds ∧
    length (results three_pages) = length ds ∧
    map page_no (results three_pages) = map d_page_no ds.
Proof.
  apply (pdf_pages_follow_engine_order (env_with (paged_engine 3))
           (Some (upload "doc.pdf")) default_mode false w0 _ three_pages).
  vm_compute. reflexivity.
Defined.

(** ** Missing and malformed layout files *)

(** Claim C5.  Take a request that was staged, on which the engine
    returned the descriptors [ds] and whose cleanup completed.  If the
    descriptor behind a page of the response (any descriptor for
    /parse/pdf, the first one for /parse/image) has no layout path, or a
    path with no file behind it, or a file that fails to load as JSON,
    the request still answers 200 and that page carries [{}]. *)
Theorem unusable_layout_gives_empty_object
    ep env file pm fp w w2 ws w3 ds w4 (i : nat) d :
  staged ep env file w = (w2, Ret ws) →
  call_engine env (engine_call ep ws pm fp) w2 = (w3, Ret ds) →
  cleanup ws w3 = (w4, Ret tt) →
  ds !! i = Some d →
  (ep = EngineParseImage → i = 0%nat) →
  layout_unusable env (fs w3) d →
  ∃ resp pe,
    post (route_of ep) env file pm fp w =
      (w4, {| status := 200; payload := ParseBody resp |}) ∧
    results resp !! i = Some pe ∧
    full_layout_info pe = empty_object.
Proof.
  intros Hs He Hc Hi Hep Hd. apply layout_of_unusable in Hd.
  destruct ep; simpl in He.
  - pose proof (Hep eq_refl) as ->. destruct ds as [|d0 ds]; [done|].
    injection Hi as ->.
    eexists _, _. split; [|split].
    + exact (post_staged EngineParseImage _ _ _ _ _ _ _ _ _ _ _ Hs
               (attempt_image_returned _ _ _ _ _ _ _ _ He) Hc).
    + reflexivity.
    + exact Hd.
  - eexists _, _. split; [|split].
    + exact (post_staged EngineParsePdf _ _ _ fp _ _ _ _ _ _ _ Hs
               (attempt_pdf_returned _ _ _ _ _ _ _ He) Hc).
    + simpl. rewrite list_lookup_fmap, Hi. reflexivity.
    + exact Hd.
Qed.

(** A PDF whose second descriptor points at a file that is not JSON. *)
Lemma unusable_layout_gives_empty_object_witness :
  ∃ resp pe,
    post ParsePdfRoute (env_with sloppy_engine) (Some (upload "doc.pdf"))
      default_mode false w0
    = ((post ParsePdfRoute (env_with sloppy_engine) (Some (upload "doc.pdf"))
          default_mode false w0).1,
       {| status := 200; payload := ParseBody resp |}) ∧
    results resp !! 1%nat = Some pe ∧
    full_layout_info pe = empty_object.
Proof.
  pose (env := env_with sloppy_engine).
  pose (w2 := (staged EngineParsePdf env (Some (upload "doc.pdf")) w0).1).
  pose (w3 := (call_engine env (pdf_call pdf_ws default_mode) w2).1).
  apply (unusable_layout_gives_empty_object EngineParsePdf env
           (Some (upload "doc.pdf")) default_mode false w0 w2 pdf_ws w3
           [ {| layout_info_path := None; d_page_no := Some 7 |};
             {| layout_info_path := Some "/tmp/tmp1/p1.json"; d_page_no := Some 3 |};
             {| layout_info_path := Some "/tmp/tmp1/p2.json"; d_page_no := None |};
             {| layout_info_path := Some "/tmp/tmp1/gone.json"; d_page_no := Some 3 |} ]
           _ 1%nat
           {| layout_info_path := Some "/tmp/tmp1/p1.json"; d_page_no := Some 3 |}).
  - vm_compute. reflexivity.
  - vm_compute. reflexivity.
  - vm_compute. reflexivity.
  - vm_compute. reflexivity.
  - intros H. discriminate H.
  - apply (file_malformed _ _ _ "/tmp/tmp1/p1.json" [Byte.x3c; Byte.x3e]
             (PyException "JSONDecodeError"
                "Expecting value: line 1 column 1 (char 0)"));
      vm_compute; reflexivity.
Defined.

(** ** The image response *)

(** Claim C6, as the code has it.  For a valid image upload that is
    staged, on which the engine returns a non-empty list of descriptors
    and whose cleanup completes, /parse/image answers 200 with
    [total_pages] the number of descriptors the engine returned and with
    [results] a single entry for page 0, holding the layout of the first
    descriptor. *)
Theorem image_success_counts_descriptors
    env file pm fp w f ext w2 ws w3 d ds w4 :
  valid_upload image_exts env file w f ext →
  stage_image env f ext (rewound w) = (w2, Ret ws) →
  call_engine env (image_call ws pm fp) w2 = (w3, Ret (d :: ds)) →
  cleanup ws w3 = (w4, Ret tt) →
  post ParseImageRoute env file pm fp w =
    (w4, {| status := 200;
            payload := ParseBody
              {| success := true;
                 total_pages := length (d :: ds);
                 results := [ {| page_no := Some 0;
                                 full_layout_info := layout_of env (fs w3) d |} ] |} |}).
Proof.
  intros Hv Hs He Hc.
  assert (staged EngineParseImage env file w = (w2, Ret ws)) as Hst.
  { simpl. rewrite (bind_ret _ _ _ _ _ (validate_image_ok _ _ _ _ _ Hv)).
    exact Hs. }
  exact (post_staged EngineParseImage _ _ _ _ _ _ _ _ _ _ _ Hst
           (attempt_image_returned _ _ _ _ _ _ _ _ He) Hc).
Qed.

(** An engine that returns two descriptors for one image. *)
Lemma image_success_counts_descriptors_witness :
  (post ParseImageRoute (env_with (paged_engine 2)) (Some (upload "scan.PNG"))
     default_mode true w0).2
  = {| status := 200;
       payload := ParseBody
         {| success := true;
            total_pages := 2;
            results := [ {| page_no := Some 0; full_layout_info := JObj [] |} ] |} |}.
Proof.
  pose (env := env_with (paged_engine 2)).
  pose (w2 := (stage_image env (upload "scan.PNG") ".png" (rewound w0)).1).
  pose (w3 := (call_engine env (image_call image_ws default_mode true) w2).1).
  pose (w4 := (cleanup image_ws w3).1).
  refine (f_equal snd
            (image_success_counts_descriptors env (Some (upload "scan.PNG"))
               default_mode true w0 (upload "scan.PNG") ".png" w2 image_ws w3
               {| layout_info_path := Some "/tmp/tmp1/api_image_page_0.json";
                  d_page_no := Some 0 |}
               [ {| layout_info_path := Some "/tmp/tmp1/api_image_page_1.json";
                    d_page_no := Some 1 |} ]
               w4 _ _ _ _)).
  - split; [reflexivity|]. exists "scan.PNG".
    repeat split; [discriminate | vm_compute; discriminate].
  - vm_compute. reflexivity.
  - vm_compute. reflexivity.
  - vm_compute. reflexivity.
Defined.

(** Claim C6, as stated, fails: the image handler reports the number of
    descriptors, which need not be 1. *)
Lemma image_total_pages_can_exceed_one :
  ∃ resp,
    (post ParseImageRoute (env_with (paged_engine 2)) (Some (upload "scan.png"))
       default_mode false w0).2
    = {| status := 200; payload := ParseBody resp |} ∧
    total_pages resp ≠ 1%nat.
Proof.
  eexists. split; [vm_compute; reflexivity|]. simpl. lia.
Qed.

(** ** Errors raised by the cleanup *)

(** Claim C3, as the code has it.  When parse and assembly of a staged
    request succeed with the response [resp], the outcome of the cleanup
    decides the answer: 200 with [resp] if the cleanup completes, and if a
    step of the cleanup raises [e], a 500 whose detail is [str(e)].  The
    [finally] blocks have no handler of their own. *)
Theorem cleanup_outcome_decides_response
    ep env file pm fp w w2 ws w3 resp w4 c :
  staged ep env file w = (w2, Ret ws) →
  attempt ep env ws pm fp w2 = (w3, Ret resp) →
  cleanup ws w3 = (w4, c) →
  post (route_of ep) env file pm fp w =
    (w4, match c with
         | Ret _ => {| status := 200; payload := ParseBody resp |}
         | Raise e => {| status := 500; payload := DetailBody (exn_str env e) |}
         end).
Proof.
  intros Hs Ha Hc. rewrite (post_staged _ _ _ _ _ _ _ _ _ _ _ _ Hs Ha Hc).
  by destruct c.
Qed.

(** The engine leaves a directory in [save_dir]; [os.remove] raises on it. *)
Lemma cleanup_outcome_decides_response_witness :
  (post ParsePdfRoute (env_with cluttering_engine) (Some (upload "doc.pdf"))
     default_mode false w0).2
  = {| status := 500;
       payload := DetailBody "[Errno 21] Is a directory: '/tmp/tmp1/figures'" |}.
Proof.
  pose (env := env_with cluttering_engine).
  pose (w2 := (staged EngineParsePdf env (Some (upload "doc.pdf")) w0).1).
  pose (w3 := (attempt EngineParsePdf env pdf_ws default_mode false w2).1).
  pose (w4 := (cleanup pdf_ws w3).1).
  refine (f_equal snd
            (cleanup_outcome_decides_response EngineParsePdf env
               (Some (upload "doc.pdf")) default_mode false w0 w2 pdf_ws w3
               {| success := true; total_pages := 1;
                  results := [ {| page_no := Some 0;
                                  full_layout_info := JObj [] |} ] |}
               w4
               (Raise (os_error "IsADirectoryError" "[Errno 21] Is a directory"
                         "/tmp/tmp1/figures"))
               _ _ _)).
  - vm_compute. reflexivity.
  - vm_compute. reflexivity.
  - vm_compute. reflexivity.
Defined.

(** Claim C3, as stated, fails: parse and assembly succeed, the cleanup
    raises, and the request is answered with a 500. *)
Lemma cleanup_error_overrides_success :
  (staged EngineParsePdf (env_with cluttering_engine)
     (Some (upload "doc.pdf")) w0).2 = Ret pdf_ws ∧
  (attempt EngineParsePdf (env_with cluttering_engine) pdf_ws default_mode false
     (staged EngineParsePdf (env_with cluttering_engine)
        (Some (upload "doc.pdf")) w0).1).2
  = Ret {| success := true; total_pages := 1;
           results := [ {| page_no := Some 0; full_layout_info := JObj [] |} ] |} ∧
  (post ParsePdfRoute (env_with cluttering_engine) (Some (upload "doc.pdf"))
     default_mode false w0).2
  = {| status := 500;
       payload := DetailBody "[Errno 21] Is a directory: '/tmp/tmp1/figures'" |}.
Proof. repeat split; vm_compute; reflexivity. Qed.

(** ** An empty result for an image *)

(** Claim C10.  When the engine returns an empty list for a staged image,
    [results[0]] raises [IndexError], the [except] clause turns it into
    the 500 "Parser error: list index out of range", and /parse/image
    answers 500: with [str] of that parser error as detail when the
    cleanup completes, with [str] of the cleanup's exception otherwise. *)
Theorem empty_image_result_is_500 env file pm fp w w2 ws w3 w4 c :
  staged EngineParseImage env file w = (w2, Ret ws) →
  call_engine env (image_call ws pm fp) w2 = (w3, Ret []) →
  cleanup ws w3 = (w4, c) →
  post ParseImageRoute env file pm fp w =
    (w4, {| status := 500;
            payload := DetailBody
              match c with
              | Ret _ =>
                  exn_str env
                    (HTTPException 500 "Parser error: list index out of range")
              | Raise e => exn_str env e
              end |}).
Proof.
  intros Hs He Hc. change ParseImageRoute with (route_of EngineParseImage).
  rewrite (post_staged EngineParseImage _ _ _ _ _ _ _ _ _ _ _ Hs
             (attempt_image_empty _ _ _ _ _ _ He) Hc).
  by destruct c.
Qed.

Lemma empty_image_result_is_500_witness :
  (post ParseImageRoute (env_with (paged_engine 0)) (Some (upload "scan.jpg"))
     default_mode false w0).2
  = {| status := 500;
       payload := DetailBody "500: Parser error: list index out of range" |}.
Proof.
  pose (env := env_with (paged_engine 0)).
  pose (ws := {| temp_dir := "/tmp/tmp0";
                 temp_path := "/tmp/tmp0/upload_9f1c.jpg";
                 output_dir := "/tmp/tmp1" |}).
  pose (w2 := (staged EngineParseImage env (Some (upload "scan.jpg")) w0).1).
  pose (w3 := (call_engine env (image_call ws default_mode false) w2).1).
  pose (w4 := (cleanup ws w3).1).
  refine (f_equal snd
            (empty_image_result_is_500 env (Some (upload "scan.jpg"))
               default_mode false w0 w2 ws w3 w4 (Ret tt) _ _ _)).
  - vm_compute. reflexivity.
  - vm_compute. reflexivity.
  - vm_compute. reflexivity.
Defined.

(** A 200 from /parse/image has at least one descriptor behind it. *)
Lemma image_ok_has_descriptor env file pm fp w w' resp :
  post ParseImageRoute env file pm fp w =
    (w', {| status := 200; payload := ParseBody resp |}) →
  ∃ ws w2 w3 d ds,
    call_engine env (image_call ws pm fp) w2 = (w3, Ret (d :: ds)) ∧
    total_pages resp = length (d :: ds) ∧
    results resp = [ {| page_no := Some 0;
                        full_layout_info := layout_of env (fs w3) d |} ].
Proof.
  intros H. apply post_ok_inv in H as (resp' & [= <-] & H).
  apply (handler_ok_inv EngineParseImage) in H as (w2 & ws & w3 & Hs & Ha & Hc).
  simpl in Ha. apply bind_inv_ret in Ha as (w3' & [ds info] & Hr & Ha).
  injection Ha as <- <-.
  unfold run_image, try_except in Hr.
  destruct (call_engine env (image_call ws pm fp) w2) as [w5 [e|ds']] eqn:He;
    unfold bind in Hr; rewrite He in Hr; [done|].
  destruct ds' as [|d ds']; [done|]. simpl in Hr.
  rewrite read_layout_spec in Hr. injection Hr as <- <- <-.
  by exists ws, w2, w5, d, ds'.
Qed.

(** ** Rejected uploads *)

(** An upload that the validation or the staging of a handler rejects with
    the exception [e] is answered with a 500 whose detail is [str(e)]:
    the 400 raised by a failed check is caught by the catch-all. *)
Lemma rejection_is_answered_500 ep env file pm fp w w1 e :
  staged ep env file w = (w1, Raise e) →
  post (route_of ep) env file pm fp w =
    (w1, {| status := 500; payload := DetailBody (exn_str env e) |}).
Proof.
  intros H. unfold post. rewrite handler_phases.
  by rewrite (catch_all_raise _ _ _ _ _ (bind_raise _ _ _ _ _ H)).
Qed.

(** An upload whose extension is not on the allow-list of the route is
    answered with a 500, and neither the engine nor the disk is touched. *)
Lemma unlisted_extension_makes_no_call r env f name ext pm fp w :
  filename f = Some name → name ≠ "" →
  suffix_lower env name = Some ext →
  str_in ext (allow_list r) = false →
  ∃ w' d,
    post r env (Some f) pm fp w =
      (w', {| status := 500; payload := DetailBody (http_str env 400 d) |}) ∧
    calls w' = calls w ∧ fs w' = fs w.
Proof.
  intros Hn Hne Hs Hin.
  pose proof (checked_filename_ok f name w Hn Hne) as Hcf.
  assert (checked_suffix env name w = (w, Ret ext)) as Hcs
    by (unfold checked_suffix; by rewrite Hs).
  destruct r; unfold allow_list in Hin.
  - assert (validate_image env (Some f) w =
            (w, Raise (HTTPException 400
                         "Invalid image format. Supported: .jpg, .jpeg, .png")))
      as Hv.
    { unfold validate_image.
      erewrite bind_ret; [|reflexivity].
      erewrite bind_ret; [|exact Hcf].
      erewrite bind_ret; [|exact Hcs].
      apply bind_raise. by rewrite Hin. }
    eexists w, _. split; [|done]. unfold post. simpl. unfold parse_image.
    by rewrite (catch_all_raise _ _ _ _ _ (bind_raise _ _ _ _ _ Hv)).
  - assert (validate_pdf env (Some f) w =
            (w, Raise (HTTPException 400
                         "Invalid PDF format. Only .pdf files accepted")))
      as Hv.
    { unfold validate_pdf.
      erewrite bind_ret; [|reflexivity].
      erewrite bind_ret; [|exact Hcf].
      erewrite bind_ret; [|exact Hcs].
      apply bind_raise.
      unfold str_in in Hin. cbn [existsb] in Hin.
      apply orb_false_elim in Hin as [-> _]. done. }
    eexists w, _. split; [|done]. unfold post. simpl. unfold parse_pdf.
    by rewrite (catch_all_raise _ _ _ _ _ (bind_raise _ _ _ _ _ Hv)).
  - unfold str_in in Hin. cbn [existsb] in Hin.
    apply orb_false_elim in Hin as [Hpdf Himg].
    change (existsb (String.eqb ext) image_exts) with (str_in ext image_exts) in Himg.
    assert (∃ w1 d,
              (let* f0 := checked_file (Some f) in
               let* name0 := checked_filename f0 in
               let* file_ext := checked_suffix env name0 in
               checked_content f0 >>
               if String.eqb file_ext ".pdf"
               then parse_pdf env (Some f) pm fp
               else if str_in file_ext image_exts
               then parse_image env (Some f) pm fp
               else raise (HTTPException 400 "Unsupported file format")) w
              = (w1, Raise (HTTPException 400 d)) ∧
              calls w1 = calls w ∧ fs w1 = fs w) as (w1 & d & Hr & Hc & Hf).
    { erewrite bind_ret; [|reflexivity].
      erewrite bind_ret; [|exact Hcf].
      erewrite bind_ret; [|exact Hcs].
      rewrite Hpdf, Himg.
      unfold checked_content, bind, upload_read, raise_if. simpl.
      case_bool_decide; simpl; (eexists _, _; split; [reflexivity|done]). }
    exists w1, d. split; [|done]. unfold post. simpl. unfold parse_file.
    by rewrite (catch_all_raise _ _ _ _ _ Hr).
Qed.

(** Claim C1 at work: uploads that fail each check of the validation are
    answered with status 500, not 400, and the detail is [str] of the 400
    that the check raised, not its message. *)
Theorem rejected_uploads_are_answered_500 :
  (post ParseImageRoute (env_with (paged_engine 1)) (Some (upload "notes.txt"))
     default_mode false w0).2
  = {| status := 500;
       payload := DetailBody
         "400: Invalid image format. Supported: .jpg, .jpeg, .png" |} ∧
  (post ParsePdfRoute (env_with (paged_engine 1)) (Some (upload "notes.txt"))
     default_mode false w0).2
  = {| status := 500;
       payload := DetailBody "400: Invalid PDF format. Only .pdf files accepted" |} ∧
  (post ParseFileRoute (env_with (paged_engine 1)) (Some (upload "notes.txt"))
     default_mode false w0).2
  = {| status := 500; payload := DetailBody "400: Unsupported file format" |} ∧
  (post ParseImageRoute (env_with (paged_engine 1))
     (Some {| filename := Some "scan.png"; content := [] |})
     default_mode false w0).2
  = {| status := 500; payload := DetailBody "400: Uploaded file is empty" |} ∧
  (post ParsePdfRoute (env_with (paged_engine 1))
     (Some {| filename := None; content := [Byte.x25] |})
     default_mode false w0).2
  = {| status := 500; payload := DetailBody "400: Missing filename" |} ∧
  (post ParseFileRoute (env_with (paged_engine 1)) None default_mode false w0).2
  = {| status := 500; payload := DetailBody "400: No file uploaded" |}.
Proof. repeat split; vm_compute; reflexivity. Qed.

(** Claim C8 at work: a [.txt] upload makes no engine call on any route,
    but the answer is a 500, not a client error. *)
Theorem unlisted_extension_is_answered_500 :
  (post ParseImageRoute (env_with (paged_engine 1)) (Some (upload "notes.txt"))
     default_mode false w0)
  = (w0, {| status := 500;
            payload := DetailBody
              "400: Invalid image format. Supported: .jpg, .jpeg, .png" |}) ∧
  (post ParsePdfRoute (env_with (paged_engine 1)) (Some (upload "notes.txt"))
     default_mode false w0)
  = (w0, {| status := 500;
            payload := DetailBody
              "400: Invalid PDF format. Only .pdf files accepted" |}) ∧
  calls (post ParseFileRoute (env_with (paged_engine 1)) (Some (upload "notes.txt"))
           default_mode false w0).1 = [] ∧
  (post ParseFileRoute (env_with (paged_engine 1)) (Some (upload "notes.txt"))
     default_mode false w0).2
  = {| status := 500; payload := DetailBody "400: Unsupported file format" |}.
Proof. repeat split; vm_compute; reflexivity. Qed.

(** ** The scratch workspace *)

(** [tidy], checked entry by entry. *)
Lemma tidyb_tidy ws (t : FS) : tidyb ws t = true → tidy ws t.
Proof.
  unfold tidyb, tidy. rewrite !andb_true_iff, forallb_forall.
  intros [[[H1 H2] H3] H4].
  assert (∀ k v, t !! k = Some v →
            (child_name (temp_dir ws) k = None ∨ k = temp_path ws) ∧
            (v = Dir → child_name (output_dir ws) k = None)) as Hall.
  { intros k v Hk.
    specialize (H4 (k, v)). rewrite <- list_elem_of_In in H4.
    specialize (H4 ltac:(by apply elem_of_map_to_list)). cbn [fst snd] in H4.
    apply andb_true_iff in H4 as [Ha Hb]. split.
    - apply orb_true_iff in Ha as [Ha|Ha]; apply bool_decide_eq_true in Ha; eauto.
    - intros ->. by apply bool_decide_eq_true in Hb. }
  repeat split.
  - intros E. by rewrite E in H1.
  - intros data E. by rewrite E in H2.
  - intros k [v Hv] [n Hn]. destruct (Hall k v Hv) as [[E|E] _]; [|done].
    by rewrite E in Hn.
  - intros data E. by rewrite E in H3.
  - intros k [n Hn] Hk. destruct (Hall k Dir Hk) as [_ E].
    by rewrite (E eq_refl) in Hn.
Qed.

(** Claim C2, as the code has it.  Once the upload of a /parse/image or
    /parse/pdf request is staged, the cleanup runs whatever the outcome
    [r] of parse and assembly (a response or any exception), whether or
    not it completes itself: the world the request leaves is the world
    the cleanup leaves.  If the workspace is tidy when parse and assembly
    are over (the temp file is a file or gone; the input directory is a
    directory holding nothing but the temp file, or gone; the output
    directory is a directory holding only files, or gone), the cleanup
    completes: the temp file, the input directory and the output
    directory are removed, with every entry of an output directory that
    was still there, and nothing is added to the disk. *)
Theorem staged_workspace_is_removed ep env file pm fp w w2 ws w3 r :
  staged ep env file w = (w2, Ret ws) →
  attempt ep env ws pm fp w2 = (w3, r) →
  (post (route_of ep) env file pm fp w).1 = (cleanup ws w3).1 ∧
  (tidy ws (fs w3) →
   ∃ w4,
     cleanup ws w3 = (w4, Ret tt) ∧
     fs w4 !! temp_path ws = None ∧
     fs w4 !! temp_dir ws = None ∧
     fs w4 !! output_dir ws = None ∧
     (fs w3 !! output_dir ws = Some Dir →
      children (fs w4) (output_dir ws) = []) ∧
     fs w4 ⊆ fs w3).
Proof.
  intros Hs Ha. split.
  - destruct (cleanup ws w3) as [w4 c] eqn:Hc.
    by rewrite (post_staged _ _ _ _ _ _ _ _ _ _ _ _ Hs Ha Hc).
  - intros Ht. destruct (cleanup_completes ws w3 Ht) as (w4 & Hc).
    exists w4. split; [done|].
    by apply cleanup_ret in Hc as (P1 & P2 & P3 & S & C).
Qed.

(** The engine writes two layout files into the output directory and
    returns; the files and the workspace are gone afterwards. *)
Lemma staged_workspace_is_removed_witness :
  fs (post ParsePdfRoute (env_with (paged_engine 2))
        (Some (upload "doc.pdf")) default_mode false w0).1
    !! "/tmp/tmp0/upload_9f1c.pdf" = None ∧
  fs (post ParsePdfRoute (env_with (paged_engine 2))
        (Some (upload "doc.pdf")) default_mode false w0).1
    !! "/tmp/tmp0" = None ∧
  fs (post ParsePdfRoute (env_with (paged_engine 2))
        (Some (upload "doc.pdf")) default_mode false w0).1
    !! "/tmp/tmp1" = None ∧
  children (fs (post ParsePdfRoute (env_with (paged_engine 2))
                  (Some (upload "doc.pdf")) default_mode false w0).1)
    "/tmp/tmp1" = [].
Proof.
  pose (env := env_with (paged_engine 2)).
  pose (w2 := (staged EngineParsePdf env (Some (upload "doc.pdf")) w0).1).
  pose (w3 := (attempt EngineParsePdf env pdf_ws default_mode false w2).1).
  pose (r := (attempt EngineParsePdf env pdf_ws default_mode false w2).2).
  destruct (staged_workspace_is_removed EngineParsePdf env
              (Some (upload "doc.pdf")) default_mode false w0 w2 pdf_ws w3 r)
    as [Hw Ht].
  - vm_compute. reflexivity.
  - apply surjective_pairing.
  - destruct Ht as (w4 & Hc & P1 & P2 & P3 & C & _).
    + apply tidyb_tidy. vm_compute. reflexivity.
    + rewrite Hc in Hw. cbn [fst] in Hw.
      assert (children (fs w4) (output_dir pdf_ws) = []) as C'
        by (apply C; vm_compute; reflexivity).
      rewrite <- Hw in P1, P2, P3, C'.
      exact (conj P1 (conj P2 (conj P3 C'))).
Defined.

(** Claim C2, as stated, fails.  On a full disk the write of the upload
    raises after the input directory and the (empty) temp file were
    created, and before the [try ... finally]: both stay behind, on
    /parse/image and on /parse/pdf.  And when the engine leaves a
    directory in [save_dir], that directory cannot be removed, the
    cleanup raises at it, and it stays behind with the output directory. *)
Lemma failed_request_leaves_files_behind :
  (fs (post ParseImageRoute (full_disk_env (paged_engine 1))
         (Some (upload "scan.png")) default_mode false w0).1
     !! "/tmp/tmp0" = Some Dir ∧
   fs (post ParseImageRoute (full_disk_env (paged_engine 1))
         (Some (upload "scan.png")) default_mode false w0).1
     !! "/tmp/tmp0/upload_9f1c.png" = Some (File [])) ∧
  (fs (post ParsePdfRoute (full_disk_env (paged_engine 1))
         (Some (upload "doc.pdf")) default_mode false w0).1
     !! "/tmp/tmp0" = Some Dir ∧
   fs (post ParsePdfRoute (full_disk_env (paged_engine 1))
         (Some (upload "doc.pdf")) default_mode false w0).1
     !! "/tmp/tmp0/upload_9f1c.pdf" = Some (File [])) ∧
  (fs (post ParsePdfRoute (env_with cluttering_engine)
         (Some (upload "doc.pdf")) default_mode false w0).1
     !! "/tmp/tmp1" = Some Dir ∧
   fs (post ParsePdfRoute (env_with cluttering_engine)
         (Some (upload "doc.pdf")) default_mode false w0).1
     !! "/tmp/tmp1/figures" = Some Dir).
Proof. repeat split; vm_compute; reflexivity. Qed.

(** ** Requests that go well *)

(** A valid image, a fresh workspace, an engine that returns descriptors
    and leaves the workspace tidy: /parse/image answers 200 with the
    number of descriptors as [total_pages] and page 0 as its only result,
    and nothing of the workspace is left on disk. *)
Lemma image_request_succeeds env file pm fp w f ext ws t3 d ds :
  valid_upload image_exts env file w f ext →
  fresh_workspace env (rewound w) ws →
  temp_path ws = path_join (temp_dir ws) ("upload_" +:+ uuid_hex env +:+ ext) →
  abspath env (temp_path ws) = temp_path ws →
  engine env (image_call ws pm fp) (fs (staged_world (rewound w) f ws))
    = (t3, Ret (d :: ds)) →
  tidy ws t3 →
  ∃ w4,
    post ParseImageRoute env file pm fp w =
      (w4, {| status := 200;
              payload := ParseBody
                {| success := true;
                   total_pages := length (d :: ds);
                   results := [ {| page_no := Some 0;
                                   full_layout_info := layout_of env t3 d |} ] |} |}) ∧
    fs w4 !! temp_path ws = None ∧
    fs w4 !! temp_dir ws = None ∧
    fs w4 !! output_dir ws = None ∧
    fs w4 ⊆ t3.
Proof.
  intros Hv Hf Hp Ha He Ht.
  pose proof (stage_image_ok env f ext _ ws Hf Hp Ha) as Hs.
  set (w2 := staged_world (rewound w) f ws) in *.
  set (w3 := {| fs := t3; upos := upos w2; ntmp := ntmp w2;
                calls := (calls w2 ++ [image_call ws pm fp])%list |}).
  assert (call_engine env (image_call ws pm fp) w2 = (w3, Ret (d :: ds))) as Hc.
  { unfold call_engine. by rewrite He. }
  destruct (cleanup_completes ws w3 Ht) as (w4 & Hcl).
  assert (staged EngineParseImage env file w = (w2, Ret ws)) as Hst.
  { simpl. by rewrite (bind_ret _ _ _ _ _ (validate_image_ok _ _ _ _ _ Hv)). }
  exists w4. split.
  - exact (post_staged EngineParseImage _ _ _ _ _ _ _ _ _ _ _ Hst
             (attempt_image_returned _ _ _ _ _ _ _ _ Hc) Hcl).
  - by apply cleanup_ret in Hcl as (? & ? & ? & ? & _).
Qed.

(** The same for a PDF: one entry per descriptor, in the engine's order. *)
Lemma pdf_request_succeeds env file pm fp w f ws t3 ds :
  valid_upload [".pdf"] env file w f ".pdf" →
  fresh_workspace env (rewound w) ws →
  temp_path ws = path_join (temp_dir ws) ("upload_" +:+ uuid_hex env +:+ ".pdf") →
  engine env (pdf_call ws pm) (fs (staged_world (rewound w) f ws)) = (t3, Ret ds) →
  tidy ws t3 →
  ∃ w4,
    post ParsePdfRoute env file pm fp w =
      (w4, {| status := 200;
              payload := ParseBody
                {| success := true;
                   total_pages := length ds;
                   results := map (λ d, {| page_no := d_page_no d;
                                           full_layout_info := layout_of env t3 d |})
                                  ds |} |}) ∧
    fs w4 !! temp_path ws = None ∧
    fs w4 !! temp_dir ws = None ∧
    fs w4 !! output_dir ws = None ∧
    fs w4 ⊆ t3.
Proof.
  intros Hv Hf Hp He Ht.
  pose proof (stage_pdf_ok env f _ ws Hf Hp) as Hs.
  set (w2 := staged_world (rewound w) f ws) in *.
  set (w3 := {| fs := t3; upos := upos w2; ntmp := ntmp w2;
                calls := (calls w2 ++ [pdf_call ws pm])%list |}).
  assert (call_engine env (pdf_call ws pm) w2 = (w3, Ret ds)) as Hc.
  { unfold call_engine. by rewrite He. }
  destruct (cleanup_completes ws w3 Ht) as (w4 & Hcl).
  assert (staged EngineParsePdf env file w = (w2, Ret ws)) as Hst.
  { simpl. by rewrite (bind_ret _ _ _ _ _ (validate_pdf_ok _ _ _ _ Hv)). }
  exists w4. split.
  - exact (post_staged EngineParsePdf _ _ _ fp _ _ _ _ _ _ _ Hst
             (attempt_pdf_returned _ _ _ _ _ _ _ Hc) Hcl).
  - by apply cleanup_ret in Hcl as (? & ? & ? & ? & _).
Qed.

(** ** Errors raised by the engine *)

(** When the engine raises [e] and the cleanup completes, /parse/pdf
    answers with [str(e)] as detail, and /parse/image with [str] of the
    500 that its [except] clause raised. *)
Lemma engine_error_detail ep env file pm fp w w2 ws w3 e w4 :
  staged ep env file w = (w2, Ret ws) →
  call_engine env (engine_call ep ws pm fp) w2 = (w3, Raise e) →
  cleanup ws w3 = (w4, Ret tt) →
  post (route_of ep) env file pm fp w =
    (w4, {| status := 500;
            payload := DetailBody
              match ep with
              | EngineParsePdf => exn_str env e
              | EngineParseImage =>
                  http_str env 500 ("Parser error: " +:+ exn_str env e)
              end |}).
Proof.
  intros Hs He Hc. destruct ep; simpl in He.
  - by rewrite (post_staged EngineParseImage _ _ _ _ _ _ _ _ _ _ _ Hs
                  (attempt_image_raised _ _ _ _ _ _ _ He) Hc).
  - by rewrite (post_staged EngineParsePdf _ _ _ _ _ _ _ _ _ _ _ Hs
                  (attempt_pdf_raised _ _ _ fp _ _ _ He) Hc).
Qed.

(** Claim C4 at work: the engine raises [RuntimeError("boom")].  The PDF
    route answers with the bare message; the image route with [str] of its
    own "Parser error" exception, which is that detail behind a status
    prefix, or the empty string with the older [str]. *)
Theorem parser_error_detail_is_not_prefixed :
  (post ParsePdfRoute (env_with (failing_engine boom)) (Some (upload "doc.pdf"))
     default_mode false w0).2
  = {| status := 500; payload := DetailBody "boom" |} ∧
  (post ParseImageRoute (env_with (failing_engine boom)) (Some (upload "scan.png"))
     default_mode false w0).2
  = {| status := 500; payload := DetailBody "500: Parser error: boom" |} ∧
  (post ParsePdfRoute (legacy_env (failing_engine boom)) (Some (upload "doc.pdf"))
     default_mode false w0).2
  = {| status := 500; payload := DetailBody "boom" |} ∧
  (post ParseImageRoute (legacy_env (failing_engine boom)) (Some (upload "scan.png"))
     default_mode false w0).2
  = {| status := 500; payload := DetailBody "" |}.
Proof. repeat split; vm_compute; reflexivity. Qed.

(** ** Dispatch *)

Lemma validate_pdf_rewound env file w f :
  valid_upload [".pdf"] env file w f ".pdf" →
  validate_pdf env file (rewound w) = validate_pdf env file w.
Proof.
  intros Hv. rewrite (validate_pdf_ok _ _ _ _ Hv).
  apply (validate_pdf_ok env file (rewound w) f).
  destruct Hv as (-> & name & Hn & Hne & Hs & Hin & Hc).
  split; [done|]. exists name. repeat split; try done.
  change (content f ≠ []). intros E. rewrite E in Hc. by rewrite drop_nil in Hc.
Qed.

Lemma dispatch_pdf env file pm fp w f w' r :
  valid_upload [".pdf"] env file w f ".pdf" →
  post ParsePdfRoute env file pm fp w = (w', r) →
  post ParseFileRoute env file pm fp w = (w', rewrapped env r).
Proof.
  intros Hv. pose proof (validate_pdf_rewound _ _ _ _ Hv) as Hr.
  assert (parse_pdf env file pm fp (rewound w) = parse_pdf env file pm fp w) as Hp.
  { unfold parse_pdf, catch_all, try_except, bind. by rewrite Hr. }
  destruct Hv as (-> & name & Hn & Hne & Hs & Hin & Hc).
  unfold post. simpl.
  assert (parse_file env (Some f) pm fp w =
          catch_all env (parse_pdf env (Some f) pm fp) w) as ->.
  { unfold parse_file. apply catch_all_ext.
    erewrite bind_ret; [|reflexivity].
    erewrite bind_ret; [|by apply checked_filename_ok].
    erewrite bind_ret; [|unfold checked_suffix; by rewrite Hs].
    erewrite bind_ret; [|by apply checked_content_ok].
    simpl. by rewrite Hp. }
  destruct (parse_pdf env (Some f) pm fp w) as [w1 [e|resp]] eqn:E.
  - rewrite (catch_all_raise _ _ _ _ _ E). intros [= <- <-].
    apply (handler_raises_500 ParsePdfRoute) in E as [e0 ->]. done.
  - rewrite (catch_all_ret _ _ _ _ _ E). by intros [= <- <-].
Qed.

(** Claim C9 at work: the same PDF upload on which the engine raises gets
    the detail "boom" from /parse/pdf and a different one from
    /parse/file, whose catch-all wraps the exception of [parse_pdf] once
    more. *)
Theorem dispatch_rewraps_pdf_errors :
  (post ParsePdfRoute (env_with (failing_engine boom)) (Some (upload "doc.pdf"))
     default_mode false w0).2
  = {| status := 500; payload := DetailBody "boom" |} ∧
  (post ParseFileRoute (env_with (failing_engine boom)) (Some (upload "doc.pdf"))
     default_mode false w0).2
  = {| status := 500; payload := DetailBody "500: boom" |} ∧
  (post ParsePdfRoute (legacy_env (failing_engine boom)) (Some (upload "doc.pdf"))
     default_mode false w0).2
  = {| status := 500; payload := DetailBody "boom" |} ∧
  (post ParseFileRoute (legacy_env (failing_engine boom)) (Some (upload "doc.pdf"))
     default_mode false w0).2
  = {| status := 500; payload := DetailBody "" |}.
Proof. repeat split; vm_compute; reflexivity. Qed.

(** * Further properties of the handlers *)

(** ** What a completed step did *)

Lemma raise_if_ret c e w w' u :
  raise_if c e w = (w', Ret u) → c = false ∧ w' = w.
Proof. destruct c; [done|]. by intros [= <-]. Qed.

Lemma mkdtemp_inv env w w' d :
  mkdtemp env w = (w', Ret d) →
  tmp_name env (ntmp w) = Ret d ∧ fs w !! d = None ∧
  w' = {| fs := <[d := Dir]> (fs w); upos := upos w; ntmp := S (ntmp w);
          calls := calls w |}.
Proof.
  unfold mkdtemp. destruct (tmp_name env (ntmp w)) as [e|d']; [done|].
  destruct (fs w !! d') eqn:E; [done|]. by intros [= <- <-].
Qed.

Lemma open_wb_inv p w w' u :
  open_wb p w = (w', Ret u) →
  fs w !! p ≠ Some Dir ∧
  w' = {| fs := <[p := File []]> (fs w); upos := upos w; ntmp := ntmp w;
          calls := calls w |}.
Proof.
  unfold open_wb, bind. rewrite get_fs_spec.
  destruct (fs w !! p) as [[data|]|]; try done; by intros [= <-].
Qed.

Lemma buffer_write_inv env p data w w' u :
  buffer_write env p data w = (w', Ret u) →
  write_fault env = None ∧
  w' = {| fs := <[p := File data]> (fs w); upos := upos w; ntmp := ntmp w;
          calls := calls w |}.
Proof.
  unfold buffer_write. destruct (write_fault env); [done|]. by intros [= <-].
Qed.

Lemma remove_inv p w w' u :
  remove p w = (w', Ret u) →
  w' = {| fs := delete p (fs w); upos := upos w; ntmp := ntmp w;
          calls := calls w |}.
Proof.
  unfold remove, bind. rewrite get_fs_spec.
  destruct (fs w !! p) as [[data|]|]; try done. by intros [= <-].
Qed.

Lemma listdir_inv d w w' names :
  listdir d w = (w', Ret names) →
  w' = w ∧ fs w !! d = Some Dir ∧ names = children (fs w) d.
Proof.
  unfold listdir, bind. rewrite get_fs_spec.
  destruct (fs w !! d) as [[data|]|]; try done. by intros [= <- <-].
Qed.

(** The loop [for f in names: os.remove(os.path.join(d, f))], when it runs
    to its end: the joined paths are gone and nothing else has changed. *)
Lemma remove_all_inv d names w w' u :
  for_each names (λ f, remove (path_join d f)) w = (w', Ret u) →
  (∀ k, fs w' !! k =
        if bool_decide (k ∈ path_join d <$> names) then None else fs w !! k) ∧
  upos w' = upos w ∧ ntmp w' = ntmp w ∧ calls w' = calls w.
Proof.
  revert w. induction names as [|n names IH]; intros w; cbn [for_each].
  - intros [= <-]. split; [|done]. intros k. rewrite fmap_nil.
    by rewrite bool_decide_eq_false_2 by apply not_elem_of_nil.
  - intros H. apply bind_inv_ret in H as (w1 & [] & Hr & H).
    apply remove_inv in Hr as ->. apply IH in H as (Hk & -> & -> & ->).
    split; [|done]. intros k. rewrite Hk, fmap_cons. cbn [fs].
    destruct (decide (k = path_join d n)) as [->|Hne].
    + rewrite lookup_delete_eq.
      rewrite (bool_decide_eq_true_2 (_ ∈ _ :: _)) by left.
      by case_bool_decide.
    + rewrite lookup_delete_ne by done.
      destruct (decide (k ∈ path_join d <$> names)) as [Hin|Hnin].
      * rewrite (bool_decide_eq_true_2 _ Hin).
        by rewrite bool_decide_eq_true_2 by (by right).
      * rewrite (bool_decide_eq_false_2 _ Hnin).
        rewrite bool_decide_eq_false_2; [done|].
        rewrite elem_of_cons. by intros [?|?].
Qed.

(** The paths that the loops of lines 94-95, 130-131, 179-180 and 220-221
    remove: the entries of [d] that are there. *)
Lemma listed_join (t : FS) d k :
  k ∈ path_join d <$> children t d ↔ is_Some (t !! k) ∧ is_Some (child_name d k).
Proof.
  rewrite list_elem_of_fmap. split.
  - intros (n & -> & (k' & Hk' & Hn)%children_elem).
    pose proof Hn as (-> & Hne & Hs)%child_name_Some.
    split; [done|]. rewrite Hn. eauto.
  - intros [Hk [n Hn]]. exists n.
    split; [by apply child_name_Some in Hn as (-> & _)|].
    apply children_elem. eauto.
Qed.

(** Lines 93-95 and 178-180: the output directory is a name that was free;
    it comes out as a directory, whatever was listed under its name is
    removed, and the rest of the disk is as before. *)
Lemma fresh_output_dir_inv env w w' d :
  fresh_output_dir env w = (w', Ret d) →
  tmp_name env (ntmp w) = Ret d ∧ fs w !! d = None ∧
  (∀ k, fs w' !! k =
        if decide (k = d) then Some Dir
        else if decide (is_Some (child_name d k)) then None
        else fs w !! k) ∧
  upos w' = upos w ∧ ntmp w' = S (ntmp w) ∧ calls w' = calls w.
Proof.
  unfold fresh_output_dir. intros H.
  apply bind_inv_ret in H as (w1 & d0 & Hm & H).
  apply bind_inv_ret in H as (w2 & names & Hl & H).
  apply bind_inv_ret in H as (w3 & [] & Hr & H).
  injection H as <- <-.
  apply mkdtemp_inv in Hm as (Hn & Hd & ->).
  apply listdir_inv in Hl as (-> & _ & ->).
  apply remove_all_inv in Hr as (Hk & -> & -> & ->).
  repeat split; try done. intros k. rewrite Hk. cbn [fs].
  destruct (decide (k = d0)) as [->|Hne].
  - rewrite bool_decide_eq_false_2, lookup_insert_eq; [done|].
    rewrite listed_join, child_name_self. by intros [_ [? ?]].
  - rewrite lookup_insert_ne by done.
    destruct (decide (is_Some (child_name d0 k))) as [Hc|Hc].
    + case_bool_decide as Hin; [done|].
      destruct (fs w !! k) as [v|] eqn:E; [|done]. exfalso. apply Hin.
      apply listed_join. split; [|done]. rewrite lookup_insert_ne by done. eauto.
    + rewrite bool_decide_eq_false_2; [done|].
      rewrite listed_join. by intros [_ ?].
Qed.

(** The loop only gets past files: [os.remove] raises on a directory. *)
Lemma remove_all_files d names w w' u :
  for_each names (λ f, remove (path_join d f)) w = (w', Ret u) →
  ∀ k, k ∈ path_join d <$> names → ∃ data, fs w !! k = Some (File data).
Proof.
  revert w. induction names as [|n names IH]; intros w; cbn [for_each].
  - intros _ k Hk. rewrite fmap_nil in Hk. by apply elem_of_nil in Hk.
  - intros H k Hk. apply bind_inv_ret in H as (w1 & [] & Hr & H).
    rewrite fmap_cons in Hk. apply elem_of_cons in Hk as [->|Hk].
    + revert Hr. unfold remove, bind. rewrite get_fs_spec.
      destruct (fs w !! path_join d n) as [[data|]|]; try done. eauto.
    + apply remove_inv in Hr as ->.
      destruct (IH _ H k Hk) as [data Hd]. cbn [fs] in Hd.
      apply lookup_delete_Some in Hd as [_ Hd]. eauto.
Qed.

Lemma fresh_output_dir_files env w w' d :
  fresh_output_dir env w = (w', Ret d) →
  ∀ k, is_Some (child_name d k) → fs w !! k ≠ Some Dir.
Proof.
  unfold fresh_output_dir. intros H k Hc Hk.
  apply bind_inv_ret in H as (w1 & d0 & Hm & H).
  apply bind_inv_ret in H as (w2 & names & Hl & H).
  apply bind_inv_ret in H as (w3 & [] & Hr & H).
  injection H as <- <-.
  apply mkdtemp_inv in Hm as (Hn & Hd & ->).
  apply listdir_inv in Hl as (-> & _ & ->).
  assert (k ≠ d0) as Hne by (intros ->; rewrite child_name_self in Hc; by destruct Hc).
  destruct (remove_all_files _ _ _ _ _ Hr k) as [data Hdata].
  { apply listed_join. split; [|done]. cbn [fs].
    rewrite lookup_insert_ne by done. eauto. }
  cbn [fs] in Hdata. rewrite lookup_insert_ne in Hdata by done. congruence.
Qed.

Lemma checked_content_inv f w w' u :
  checked_content f w = (w', Ret u) →
  drop (upos w) (content f) ≠ [] ∧ w' = rewound w.
Proof.
  unfold checked_content, bind, upload_read, raise_if. simpl.
  case_bool_decide; simpl; [done|]. by intros [= <-].
Qed.

Lemma checked_name_inv env f w w1 name w2 ext :
  checked_filename f w = (w1, Ret name) →
  checked_suffix env name w1 = (w2, Ret ext) →
  filename f = Some name ∧ name ≠ "" ∧ suffix_lower env name = Some ext ∧
  w2 = w.
Proof.
  unfold checked_filename, checked_suffix.
  destruct (filename f) as [[|a n]|]; try done. intros [= <- <-].
  destruct (suffix_lower env (String a n)); [|done]. by intros [= <- <-].
Qed.

(** An upload that passes the validation of /parse/image is valid, and
    the validation has only moved the read position. *)
Lemma validate_image_inv env file w w1 f ext :
  validate_image env file w = (w1, Ret (f, ext)) →
  valid_upload image_exts env file w f ext ∧ w1 = rewound w.
Proof.
  unfold validate_image. intros H.
  apply bind_inv_ret in H as (wa & f0 & Hf & H).
  apply bind_inv_ret in H as (wb & name & Hn & H).
  apply bind_inv_ret in H as (wc & ext0 & Hs & H).
  apply bind_inv_ret in H as (wd & [] & Hr & H).
  apply bind_inv_ret in H as (we & [] & Hc & H).
  injection H as <- <- <-.
  destruct file as [f'|]; [|done]. injection Hf as <- <-.
  destruct (checked_name_inv _ _ _ _ _ _ _ Hn Hs) as (Hfn & Hne & Hsl & ->).
  apply raise_if_ret in Hr as [Hin ->]. apply negb_false_iff in Hin.
  apply checked_content_inv in Hc as [Hc ->].
  split; [|done]. split; [done|]. by exists name.
Qed.

Lemma validate_pdf_inv env file w w1 f :
  validate_pdf env file w = (w1, Ret f) →
  valid_upload [".pdf"] env file w f ".pdf" ∧ w1 = rewound w.
Proof.
  unfold validate_pdf. intros H.
  apply bind_inv_ret in H as (wa & f0 & Hf & H).
  apply bind_inv_ret in H as (wb & name & Hn & H).
  apply bind_inv_ret in H as (wc & ext0 & Hs & H).
  apply bind_inv_ret in H as (wd & [] & Hr & H).
  apply bind_inv_ret in H as (we & [] & Hc & H).
  injection H as <- <-.
  destruct file as [f'|]; [|done]. injection Hf as <- <-.
  destruct (checked_name_inv _ _ _ _ _ _ _ Hn Hs) as (Hfn & Hne & Hsl & ->).
  apply raise_if_ret in Hr as [Hin ->]. apply negb_false_iff in Hin.
  apply String.eqb_eq in Hin as ->.
  apply checked_content_inv in Hc as [Hc ->].
  split; [|done]. split; [done|]. by exists name.
Qed.

(** ** What a completed staging did *)

Lemma staged_lookup_inserts (t : FS) td p od data k :
  (if decide (k = od) then Some Dir
   else if decide (is_Some (child_name od k)) then None
   else <[p := File data]> (<[td := Dir]> t) !! k)
  = staged_lookup t td p od data k.
Proof.
  unfold staged_lookup. repeat case_decide; try done; subst.
  - by rewrite lookup_insert_eq.
  - rewrite lookup_insert_ne, lookup_insert_eq; done.
  - by rewrite !lookup_insert_ne.
Qed.

Lemma stage_image_inv env f ext w w2 ws :
  stage_image env f ext w = (w2, Ret ws) →
  ∃ p, p = path_join (temp_dir ws) ("upload_" +:+ uuid_hex env +:+ ext) ∧
       temp_path ws = abspath env p ∧
       staging_done env w (drop (upos w) (content f)) ws p w2.
Proof.
  unfold stage_image. intros H.
  apply bind_inv_ret in H as (wa & td & Hm & H).
  apply bind_inv_ret in H as (wb & data & Hr & H).
  apply bind_inv_ret in H as (wc & [] & Ho & H).
  apply bind_inv_ret in H as (wd & [] & Hw & H).
  apply bind_inv_ret in H as (we & created & Hc & H).
  apply bind_inv_ret in H as (wf & [] & Hi & H).
  apply bind_inv_ret in H as (wg & found & Hfd & H).
  apply bind_inv_ret in H as (wh & [] & Hj & H).
  apply bind_inv_ret in H as (wi & od & Hfo & H).
  injection H as <- <-. cbn [temp_dir temp_path output_dir].
  apply mkdtemp_inv in Hm as (N1 & F1 & ->).
  injection Hr as <- <-.
  apply open_wb_inv in Ho as (Hp & ->). cbn [fs upos ntmp calls] in *.
  apply buffer_write_inv in Hw as (Hwf & ->). cbn [fs upos ntmp calls] in *.
  rewrite path_exists_spec in Hc. injection Hc as <- _.
  apply raise_if_ret in Hi as [_ ->].
  rewrite path_exists_spec in Hfd. injection Hfd as <- _.
  apply raise_if_ret in Hj as [_ ->].
  pose proof (fresh_output_dir_files _ _ _ _ Hfo) as Hfl.
  apply fresh_output_dir_inv in Hfo as (N2 & F2 & Hk & _ & Hnt & Hcl).
  cbn [fs upos ntmp calls] in *. rewrite insert_insert_eq in F2, Hk, Hfl.
  eexists. split; [reflexivity|]. split; [done|].
  set (p := path_join td ("upload_" +:+ uuid_hex env +:+ ext)) in *.
  assert (p ≠ td) as Hptd by (intros E; by rewrite E, lookup_insert_eq in Hp).
  rewrite lookup_insert_ne in Hp by done.
  assert (od ≠ p) as Hop by (intros E; by rewrite E, lookup_insert_eq in F2).
  rewrite lookup_insert_ne in F2 by done.
  assert (od ≠ td) as Hotd by (intros E; by rewrite E, lookup_insert_eq in F2).
  rewrite lookup_insert_ne in F2 by done.
  repeat split; try done.
  - destruct (child_name od td) as [n|] eqn:E; [|done]. exfalso.
    apply (Hfl td); [eauto|].
    by rewrite lookup_insert_ne, lookup_insert_eq.
  - intros k. rewrite Hk. apply staged_lookup_inserts.
Qed.

Lemma stage_pdf_inv env f w w2 ws :
  stage_pdf env f w = (w2, Ret ws) →
  temp_path ws = path_join (temp_dir ws) ("upload_" +:+ uuid_hex env +:+ ".pdf") ∧
  staging_done env w (drop (upos w) (content f)) ws (temp_path ws) w2.
Proof.
  unfold stage_pdf. intros H.
  apply bind_inv_ret in H as (wa & td & Hm & H).
  apply bind_inv_ret in H as (wc & [] & Ho & H).
  apply bind_inv_ret in H as (wb & data & Hr & H).
  apply bind_inv_ret in H as (wd & [] & Hw & H).
  apply bind_inv_ret in H as (wi & od & Hfo & H).
  injection H as <- <-. cbn [temp_dir temp_path output_dir].
  apply mkdtemp_inv in Hm as (N1 & F1 & ->).
  apply open_wb_inv in Ho as (Hp & ->). cbn [fs upos ntmp calls] in *.
  injection Hr as <- <-. cbn [fs upos ntmp calls] in *.
  apply buffer_write_inv in Hw as (Hwf & ->). cbn [fs upos ntmp calls] in *.
  pose proof (fresh_output_dir_files _ _ _ _ Hfo) as Hfl.
  apply fresh_output_dir_inv in Hfo as (N2 & F2 & Hk & _ & Hnt & Hcl).
  cbn [fs upos ntmp calls] in *. rewrite insert_insert_eq in F2, Hk, Hfl.
  split; [done|].
  set (p := path_join td ("upload_" +:+ uuid_hex env +:+ ".pdf")) in *.
  assert (p ≠ td) as Hptd by (intros E; by rewrite E, lookup_insert_eq in Hp).
  rewrite lookup_insert_ne in Hp by done.
  assert (od ≠ p) as Hop by (intros E; by rewrite E, lookup_insert_eq in F2).
  rewrite lookup_insert_ne in F2 by done.
  assert (od ≠ td) as Hotd by (intros E; by rewrite E, lookup_insert_eq in F2).
  rewrite lookup_insert_ne in F2 by done.
  repeat split; try done.
  - destruct (child_name od td) as [n|] eqn:E; [|done]. exfalso.
    apply (Hfl td); [eauto|].
    by rewrite lookup_insert_ne, lookup_insert_eq.
  - intros k. rewrite Hk. apply staged_lookup_inserts.
Qed.

(** A staged request had a valid upload, and its workspace is the staged
    disk with the whole upload in the temp file. *)
Lemma staged_inv ep env file w w2 ws :
  staged ep env file w = (w2, Ret ws) →
  ∃ f ext p,
    valid_upload (allow_list (route_of ep)) env file w f ext ∧
    p = path_join (temp_dir ws) ("upload_" +:+ uuid_hex env +:+ ext) ∧
    temp_path ws = match ep with
                   | EngineParseImage => abspath env p
                   | EngineParsePdf => p
                   end ∧
    staging_done env w (content f) ws p w2.
Proof.
  destruct ep; simpl; intros H.
  - apply bind_inv_ret in H as (w1 & [f ext] & Hv & H).
    apply validate_image_inv in Hv as [Hv ->].
    apply stage_image_inv in H as (p & Hp & Ht & Hd).
    by exists f, ext, p.
  - apply bind_inv_ret in H as (w1 & f & Hv & H).
    apply validate_pdf_inv in Hv as [Hv ->].
    apply stage_pdf_inv in H as (Hp & Hd).
    by exists f, ".pdf", (temp_path ws).
Qed.

(** ** The engine calls of a request *)

(** Parse and assembly call the engine once, first thing; the layout
    files are only read. *)
Lemma attempt_calls ep env ws pm fp w2 w3 r :
  attempt ep env ws pm fp w2 = (w3, r) →
  calls w3 = (calls w2 ++ [engine_call ep ws pm fp])%list ∧
  upos w3 = upos w2 ∧ ntmp w3 = ntmp w2.
Proof.
  destruct ep; simpl.
  - unfold run_image, try_except, bind.
    destruct (call_engine env (image_call ws pm fp) w2) as [w' [e|ds]] eqn:E;
      apply call_engine_inv in E as (_ & Hc & Hu & Hn).
    + by intros [= <- _].
    + destruct ds as [|d ds]; simpl; [by intros [= <- _]|].
      rewrite read_layout_spec. by intros [= <- _].
  - unfold run_pdf, bind.
    destruct (call_engine env (pdf_call ws pm) w2) as [w' [e|ds]] eqn:E;
      apply call_engine_inv in E as (_ & Hc & Hu & Hn).
    + by intros [= <- _].
    + rewrite for_collect_format. by intros [= <- _].
Qed.

(** The world a request leaves, from the phases it went through. *)
Lemma handler_world ep env file pm fp w :
  match staged ep env file w with
  | (w2, Raise _) => (handler (route_of ep) env file pm fp w).1 = w2
  | (w2, Ret ws) =>
      (handler (route_of ep) env file pm fp w).1 =
      (cleanup ws (attempt ep env ws pm fp w2).1).1
  end.
Proof.
  rewrite handler_phases. unfold catch_all, try_except, bind, try_finally.
  destruct (staged ep env file w) as [w2 [e|ws]]; [done|].
  destruct (attempt ep env ws pm fp w2) as [w3 r]. simpl.
  by destruct (cleanup ws w3) as [w4 [e|[]]], r.
Qed.

Lemma handler_calls ep env file pm fp w :
  calls (handler (route_of ep) env file pm fp w).1 = calls w ∨
  ∃ w2 ws,
    staged ep env file w = (w2, Ret ws) ∧
    calls (handler (route_of ep) env file pm fp w).1
      = (calls w ++ [engine_call ep ws pm fp])%list.
Proof.
  pose proof (handler_world ep env file pm fp w) as H.
  destruct (staged ep env file w) as [w2 [e|ws]] eqn:Hs;
    pose proof (staged_same_calls _ _ _ _ _ _ Hs) as Hsc;
    unfold same_calls in Hsc.
  - left. by rewrite H.
  - right. exists w2, ws. split; [done|]. rewrite H.
    destruct (attempt ep env ws pm fp w2) as [w3 r] eqn:Ha.
    apply attempt_calls in Ha as (Ha & _). simpl.
    destruct (cleanup ws w3) as [w4 c] eqn:Hc.
    apply cleanup_same_calls in Hc. unfold same_calls in Hc. simpl.
    by rewrite Hc, Ha, Hsc.
Qed.

(** ** The dispatch of /parse/file *)

Lemma catch_all_400 {A} env (m : M A) w w' d :
  m w = (w', Raise (HTTPException 400 d)) →
  catch_all env m w = (w', Raise (HTTPException 500 (http_str env 400 d))).
Proof. intros H. by rewrite (catch_all_raise _ _ _ _ _ H). Qed.

(** What [parse_file] does: it rejects the upload itself, with one of its
    own 400s and without touching the disk or the engine, or it rewinds
    the upload and hands it to the handler of its extension, whose result
    goes through the catch-all of [parse_file]. *)
Lemma parse_file_cases env file pm fp w :
  (∃ w' d,
     parse_file env file pm fp w =
       (w', Raise (HTTPException 500 (http_str env 400 d))) ∧
     fs w' = fs w ∧ calls w' = calls w ∧ ntmp w' = ntmp w) ∨
  (∃ ep f ext,
     valid_upload (allow_list (route_of ep)) env file w f ext ∧
     parse_file env file pm fp w =
       catch_all env (handler (route_of ep) env file pm fp) (rewound w)).
Proof.
  destruct file as [f|]; [|left; by eexists w, _].
  destruct (filename f) as [name|] eqn:Hn.
  2:{ left. eexists w, _. split; [|done]. unfold parse_file.
      apply catch_all_400.
      erewrite bind_ret; [|reflexivity].
      apply bind_raise. unfold checked_filename. by rewrite Hn. }
  destruct (decide (name = "")) as [->|Hne].
  { left. eexists w, _. split; [|done]. unfold parse_file.
    apply catch_all_400.
    erewrite bind_ret; [|reflexivity].
    apply bind_raise. unfold checked_filename. by rewrite Hn. }
  pose proof (checked_filename_ok f name w Hn Hne) as Hcf.
  destruct (suffix_lower env name) as [ext|] eqn:Hs.
  2:{ left. eexists w, _. split; [|done]. unfold parse_file.
      apply catch_all_400.
      erewrite bind_ret; [|reflexivity].
      erewrite bind_ret; [|exact Hcf].
      apply bind_raise. unfold checked_suffix. by rewrite Hs. }
  assert (checked_suffix env name w = (w, Ret ext)) as Hcs
    by (unfold checked_suffix; by rewrite Hs).
  destruct (decide (drop (upos w) (content f) = [])) as [He|He].
  { left. eexists _, _. split.
    - unfold parse_file. apply catch_all_400.
      erewrite bind_ret; [|reflexivity].
      erewrite bind_ret; [|exact Hcf].
      erewrite bind_ret; [|exact Hcs].
      apply bind_raise.
      unfold checked_content, bind, upload_read, raise_if. simpl.
      rewrite bool_decide_eq_true_2 by done. reflexivity.
    - done. }
  pose proof (checked_content_ok f w He) as Hcc.
  assert (parse_file env (Some f) pm fp w =
          catch_all env
            (if String.eqb ext ".pdf"
             then parse_pdf env (Some f) pm fp
             else if str_in ext image_exts
                  then parse_image env (Some f) pm fp
                  else raise (HTTPException 400 "Unsupported file format"))
            (rewound w)) as Hpf.
  { unfold parse_file, catch_all at 1, try_except at 1.
    erewrite bind_ret; [|reflexivity].
    erewrite bind_ret; [|exact Hcf].
    erewrite bind_ret; [|exact Hcs].
    erewrite bind_ret; [|exact Hcc]. reflexivity. }
  destruct (String.eqb_spec ext ".pdf") as [->|Hpdf].
  { right. exists EngineParsePdf, f, ".pdf". split; [|exact Hpf].
    split; [done|]. by exists name. }
  destruct (str_in ext image_exts) eqn:Hin.
  { right. exists EngineParseImage, f, ext. split; [|exact Hpf].
    split; [done|]. by exists name. }
  left. eexists (rewound w), _. split; [|done]. rewrite Hpf.
  by apply catch_all_400.
Qed.

Lemma catch_all_world {A} env (m : M A) w :
  (catch_all env m w).1 = (m w).1.
Proof. unfold catch_all, try_except. by destruct (m w) as [w' [e|a]]. Qed.

Lemma post_world r env file pm fp w :
  (post r env file pm fp w).1 = (handler r env file pm fp w).1.
Proof. unfold post. by destruct (handler r env file pm fp w). Qed.

(** X1.  A request that reaches a handler (FastAPI hands over a file
    part with a file name, a [prompt_mode] string and a boolean
    [fitz_preprocess]) is answered, on every route and whatever the
    content, the disk and the engine, either 200 with a parse response or
    500 with a detail string: the catch-all of each handler lets no other
    status, no 400 of its own checks and no bare exception out. *)
Theorem every_answer_is_200_or_500 r env f name pm fp w :
  filename f = Some name → name ≠ "" →
  (∃ resp, (post r env (Some f) pm fp w).2 =
             {| status := 200; payload := ParseBody resp |}) ∨
  (∃ d, (post r env (Some f) pm fp w).2 =
          {| status := 500; payload := DetailBody d |}).
Proof.
  intros _ _. unfold post.
  destruct (handler r env (Some f) pm fp w) as [w' [e|resp]] eqn:H; simpl.
  - right. apply handler_raises_500 in H as [e0 ->]. by eexists.
  - left. by eexists.
Qed.

(** A text file sent to /parse/file. *)
Lemma every_answer_is_200_or_500_witness :
  (∃ resp, (post ParseFileRoute (env_with (paged_engine 1))
              (Some (upload "notes.txt")) default_mode false w0).2 =
             {| status := 200; payload := ParseBody resp |}) ∨
  (∃ d, (post ParseFileRoute (env_with (paged_engine 1))
           (Some (upload "notes.txt")) default_mode false w0).2 =
          {| status := 500; payload := DetailBody d |}).
Proof.
  apply (every_answer_is_200_or_500 ParseFileRoute (env_with (paged_engine 1))
           (upload "notes.txt") "notes.txt"); [reflexivity|discriminate].
Defined.

Lemma valid_upload_rewound allowed env file w f ext :
  valid_upload allowed env file w f ext →
  valid_upload allowed env file (rewound w) f ext.
Proof.
  intros (-> & name & Hn & Hne & Hs & Hin & Hc).
  split; [done|]. exists name. repeat split; try done.
  change (content f ≠ []). intros E. rewrite E in Hc. by rewrite drop_nil in Hc.
Qed.

(** The handlers start by rewinding a valid upload, so they do the same
    on an upload that is already rewound. *)
Lemma handler_rewound ep env file pm fp w f ext :
  valid_upload (allow_list (route_of ep)) env file w f ext →
  handler (route_of ep) env file pm fp (rewound w) =
  handler (route_of ep) env file pm fp w.
Proof.
  intros Hv. pose proof (valid_upload_rewound _ _ _ _ _ _ Hv) as Hr.
  rewrite !handler_phases. unfold catch_all, try_except.
  assert (staged ep env file (rewound w) = staged ep env file w) as Hs.
  { destruct ep; simpl; unfold bind.
    - by rewrite (validate_image_ok _ _ _ _ _ Hv), (validate_image_ok _ _ _ _ _ Hr).
    - assert (ext = ".pdf") as ->.
      { destruct Hv as (_ & name & _ & _ & _ & Hin & _).
        unfold str_in in Hin. simpl in Hin.
        rewrite orb_false_r in Hin. by apply String.eqb_eq. }
      by rewrite (validate_pdf_ok _ _ _ _ Hv), (validate_pdf_ok _ _ _ _ Hr). }
  unfold bind. by rewrite Hs.
Qed.

(** An extension on the image list is not [.pdf]. *)
Lemma image_ext_not_pdf ext :
  str_in ext image_exts = true → String.eqb ext ".pdf" = false.
Proof.
  unfold str_in, image_exts. simpl. rewrite orb_false_r.
  intros H. apply orb_true_iff in H as [H|H];
    [|apply orb_true_iff in H as [H|H]];
    apply String.eqb_eq in H; subst; reflexivity.
Qed.

Lemma parse_file_valid ep env file pm fp w f ext :
  valid_upload (allow_list (route_of ep)) env file w f ext →
  parse_file env file pm fp w =
  catch_all env (handler (route_of ep) env file pm fp) w.
Proof.
  intros Hv. pose proof (handler_rewound ep env file pm fp w f ext Hv) as Hr.
  destruct Hv as (-> & name & Hn & Hne & Hs & Hin & Hc).
  unfold parse_file. apply catch_all_ext.
  erewrite bind_ret; [|reflexivity].
  erewrite bind_ret; [|by apply checked_filename_ok].
  erewrite bind_ret; [|unfold checked_suffix; by rewrite Hs].
  erewrite bind_ret; [|by apply checked_content_ok].
  rewrite <- Hr. destruct ep; simpl in *.
  - by rewrite (image_ext_not_pdf _ Hin), Hin.
  - unfold str_in in Hin. simpl in Hin. rewrite orb_false_r in Hin.
    by rewrite Hin.
Qed.

Lemma staged_rewound ep env file w f ext :
  valid_upload (allow_list (route_of ep)) env file w f ext →
  staged ep env file (rewound w) = staged ep env file w.
Proof.
  intros Hv. pose proof (valid_upload_rewound _ _ _ _ _ _ Hv) as Hr.
  destruct ep; simpl; unfold bind.
  - by rewrite (validate_image_ok _ _ _ _ _ Hv), (validate_image_ok _ _ _ _ _ Hr).
  - assert (ext = ".pdf") as ->.
    { destruct Hv as (_ & name & _ & _ & _ & Hin & _).
      unfold str_in in Hin. simpl in Hin.
      rewrite orb_false_r in Hin. by apply String.eqb_eq. }
    by rewrite (validate_pdf_ok _ _ _ _ Hv), (validate_pdf_ok _ _ _ _ Hr).
Qed.

(** X2.  A request makes at most one engine call, on any route.  If it
    makes one, the request's upload was staged in a workspace [ws], and
    the call is [parse_image] on /parse/image or [parse_pdf] on
    /parse/pdf (either of them on /parse/file) with the temp file of
    [ws] as [input_path], the output directory of [ws] as [save_dir],
    [filename] "api_image" or "api_pdf" and the request's [prompt_mode];
    the request's [fitz_preprocess] goes to [parse_image] only. *)
Theorem request_calls_engine_at_most_once r env file pm fp w :
  calls (post r env file pm fp w).1 = calls w ∨
  ∃ ep w2 ws,
    (r = route_of ep ∨ r = ParseFileRoute) ∧
    staged ep env file w = (w2, Ret ws) ∧
    calls (post r env file pm fp w).1
      = (calls w ++
         [match ep with
          | EngineParseImage =>
              {| c_entry := EngineParseImage;
                 c_input_path := temp_path ws;
                 c_filename := "api_image";
                 c_prompt_mode := pm;
                 c_save_dir := output_dir ws;
                 c_fitz_preprocess := Some fp |}
          | EngineParsePdf =>
              {| c_entry := EngineParsePdf;
                 c_input_path := temp_path ws;
                 c_filename := "api_pdf";
                 c_prompt_mode := pm;
                 c_save_dir := output_dir ws;
                 c_fitz_preprocess := None |}
          end])%list.
Proof.
  rewrite post_world. destruct r.
  - destruct (handler_calls EngineParseImage env file pm fp w)
      as [H|(w2 & ws & Hs & H)]; [by left|].
    right. exists EngineParseImage, w2, ws. split; [by left|]. by split.
  - destruct (handler_calls EngineParsePdf env file pm fp w)
      as [H|(w2 & ws & Hs & H)]; [by left|].
    right. exists EngineParsePdf, w2, ws. split; [by left|]. by split.
  - simpl. destruct (parse_file_cases env file pm fp w)
      as [(w' & d & -> & _ & Hc & _)|(ep & f & ext & Hv & ->)]; [by left|].
    rewrite catch_all_world.
    destruct (handler_calls ep env file pm fp (rewound w))
      as [H|(w2 & ws & Hs & H)]; [by left|].
    right. exists ep, w2, ws. split; [by right|].
    rewrite (staged_rewound _ _ _ _ _ _ Hv) in Hs. split; [done|].
    by destruct ep.
Qed.

(** X3.  /parse/file on a valid upload (a [.pdf], or an image with a
    listed extension) runs the handler of that extension on the same
    upload: it leaves the same world behind and gives the same 200
    response; an error of the handler comes back with the same status 500
    and with [str] of the handler's exception as detail, because the
    catch-all of [parse_file] wraps it once more. *)
Theorem dispatch_follows_handler ep env file pm fp w f ext w' r :
  valid_upload (allow_list (route_of ep)) env file w f ext →
  post (route_of ep) env file pm fp w = (w', r) →
  post ParseFileRoute env file pm fp w = (w', rewrapped env r).
Proof.
  intros Hv. unfold post at 2. cbn [handler].
  rewrite (parse_file_valid ep env file pm fp w f ext Hv). unfold post.
  destruct (handler (route_of ep) env file pm fp w) as [w1 [e|resp]] eqn:E.
  - rewrite (catch_all_raise _ _ _ _ _ E). intros [= <- <-].
    apply handler_raises_500 in E as [e0 ->]. done.
  - rewrite (catch_all_ret _ _ _ _ _ E). by intros [= <- <-].
Qed.

(** An image on which the engine raises: the detail of /parse/image comes
    back from /parse/file behind one more status prefix. *)
Lemma dispatch_follows_handler_witness :
  post ParseFileRoute (env_with (failing_engine boom)) (Some (upload "scan.JPG"))
    default_mode true w0
  = ((post ParseImageRoute (env_with (failing_engine boom))
        (Some (upload "scan.JPG")) default_mode true w0).1,
     {| status := 500; payload := DetailBody "500: 500: Parser error: boom" |}).
Proof.
  apply (dispatch_follows_handler EngineParseImage
           (env_with (failing_engine boom)) (Some (upload "scan.JPG"))
           default_mode true w0 (upload "scan.JPG") ".jpg" _
           {| status := 500; payload := DetailBody "500: Parser error: boom" |}).
  - split; [reflexivity|]. exists "scan.JPG".
    repeat split; [discriminate | vm_compute; discriminate].
  - vm_compute. reflexivity.
Defined.

(** ** Uploads that are turned away *)

Lemma allow_list_file ep ext :
  str_in ext (allow_list (route_of ep)) = true →
  str_in ext (allow_list ParseFileRoute) = true.
Proof.
  destruct ep; unfold allow_list, route_of, str_in; cbn [existsb].
  - intros ->. apply orb_true_r.
  - simpl. rewrite orb_false_r. by intros ->.
Qed.

(** X4.  An upload whose extension is not on the allow-list of the route
    is answered 500 with [str] of a 400 as detail, and the request leaves
    no trace: the disk is as before, no temporary directory was made and
    the engine was not called. *)
Theorem unlisted_extension_leaves_no_trace r env f name ext pm fp w :
  filename f = Some name → name ≠ "" →
  suffix_lower env name = Some ext →
  str_in ext (allow_list r) = false →
  ∃ w' d,
    post r env (Some f) pm fp w =
      (w', {| status := 500; payload := DetailBody (http_str env 400 d) |}) ∧
    fs w' = fs w ∧ calls w' = calls w ∧ ntmp w' = ntmp w.
Proof.
  intros Hn Hne Hs Hin.
  pose proof (checked_filename_ok f name w Hn Hne) as Hcf.
  assert (checked_suffix env name w = (w, Ret ext)) as Hcs
    by (unfold checked_suffix; by rewrite Hs).
  destruct r.
  - exists w, "Invalid image format. Supported: .jpg, .jpeg, .png".
    split; [|done].
    rewrite (rejection_is_answered_500 EngineParseImage _ _ _ _ _ w
               (HTTPException 400
                  "Invalid image format. Supported: .jpg, .jpeg, .png"));
      [done|].
    simpl. apply bind_raise. unfold validate_image.
    erewrite bind_ret; [|reflexivity].
    erewrite bind_ret; [|exact Hcf].
    erewrite bind_ret; [|exact Hcs].
    apply bind_raise. unfold allow_list in Hin. by rewrite Hin.
  - exists w, "Invalid PDF format. Only .pdf files accepted".
    split; [|done].
    rewrite (rejection_is_answered_500 EngineParsePdf _ _ _ _ _ w
               (HTTPException 400
                  "Invalid PDF format. Only .pdf files accepted"));
      [done|].
    simpl. apply bind_raise. unfold validate_pdf.
    erewrite bind_ret; [|reflexivity].
    erewrite bind_ret; [|exact Hcf].
    erewrite bind_ret; [|exact Hcs].
    apply bind_raise. unfold allow_list, str_in in Hin. cbn [existsb] in Hin.
    apply orb_false_elim in Hin as [-> _]. done.
  - destruct (parse_file_cases env (Some f) pm fp w)
      as [(w' & d & Hp & Hf & Hc & Ht)|(ep & f' & ext' & Hv & _)].
    + exists w', d. split; [|done]. unfold post. simpl. by rewrite Hp.
    + exfalso. destruct Hv as ([= <-] & name' & Hn' & _ & Hs' & Hin' & _).
      rewrite Hn in Hn'. injection Hn' as <-.
      rewrite Hs in Hs'. injection Hs' as <-.
      apply allow_list_file in Hin'. by rewrite Hin in Hin'.
Qed.

Lemma unlisted_extension_leaves_no_trace_witness :
  ∃ w' d,
    post ParseFileRoute (env_with (paged_engine 1)) (Some (upload "notes.txt"))
      default_mode false w0 =
      (w', {| status := 500; payload := DetailBody (starlette_str 400 d) |}) ∧
    fs w' = fs w0 ∧ calls w' = calls w0 ∧ ntmp w' = ntmp w0.
Proof.
  apply (unlisted_extension_leaves_no_trace ParseFileRoute
           (env_with (paged_engine 1)) (upload "notes.txt") "notes.txt" ".txt");
    [reflexivity | discriminate | reflexivity | reflexivity].
Defined.

(** X5.  An upload with nothing left to read is answered 500 with [str]
    of the 400 "Uploaded file is empty" and nothing is staged: on
    /parse/image and /parse/pdf when its extension is on the list (an
    unlisted extension is reported first), on /parse/file whatever its
    extension, because [parse_file] reads the content before it looks at
    the extension. *)
Theorem empty_upload_is_turned_away r env f name ext pm fp w :
  filename f = Some name → name ≠ "" →
  suffix_lower env name = Some ext →
  drop (upos w) (content f) = [] →
  r = ParseFileRoute ∨ str_in ext (allow_list r) = true →
  ∃ w',
    post r env (Some f) pm fp w =
      (w', {| status := 500;
              payload := DetailBody (http_str env 400 "Uploaded file is empty") |}) ∧
    fs w' = fs w ∧ calls w' = calls w ∧ ntmp w' = ntmp w.
Proof.
  intros Hn Hne Hs He Hr.
  pose proof (checked_filename_ok f name w Hn Hne) as Hcf.
  assert (checked_suffix env name w = (w, Ret ext)) as Hcs
    by (unfold checked_suffix; by rewrite Hs).
  set (w1 := {| fs := fs w; upos := length (content f); ntmp := ntmp w;
                calls := calls w |}).
  assert (checked_content f w =
          (w1, Raise (HTTPException 400 "Uploaded file is empty"))) as Hcc.
  { unfold checked_content, bind, upload_read, raise_if. simpl.
    by rewrite bool_decide_eq_true_2. }
  exists w1. split; [|done].
  assert (r = ParseFileRoute ∨
          r ≠ ParseFileRoute ∧ str_in ext (allow_list r) = true) as [->|[Hnf Hin]].
  { destruct r; [right|right|left]; try done; by destruct Hr. }
  - unfold post. simpl. unfold parse_file.
    erewrite catch_all_400; [done|].
    erewrite bind_ret; [|reflexivity].
    erewrite bind_ret; [|exact Hcf].
    erewrite bind_ret; [|exact Hcs].
    by apply bind_raise.
  - destruct r; [| |done].
    + rewrite (rejection_is_answered_500 EngineParseImage _ _ _ _ _ w1
                 (HTTPException 400 "Uploaded file is empty")); [done|].
      simpl. apply bind_raise. unfold validate_image.
      erewrite bind_ret; [|reflexivity].
      erewrite bind_ret; [|exact Hcf].
      erewrite bind_ret; [|exact Hcs].
      erewrite bind_ret; [|unfold allow_list in Hin; by rewrite Hin].
      by apply bind_raise.
    + rewrite (rejection_is_answered_500 EngineParsePdf _ _ _ _ _ w1
                 (HTTPException 400 "Uploaded file is empty")); [done|].
      simpl. apply bind_raise. unfold validate_pdf.
      erewrite bind_ret; [|reflexivity].
      erewrite bind_ret; [|exact Hcf].
      erewrite bind_ret; [|exact Hcs].
      erewrite bind_ret.
      2:{ unfold allow_list, str_in in Hin. cbn [existsb] in Hin.
          rewrite orb_false_r in Hin. by rewrite Hin. }
      by apply bind_raise.
Qed.

(** An empty [notes.txt] on /parse/file: the empty content is reported,
    not the extension. *)
Lemma empty_upload_is_turned_away_witness :
  ∃ w',
    post ParseFileRoute (env_with (paged_engine 1))
      (Some {| filename := Some "notes.txt"; content := [] |})
      default_mode false w0 =
      (w', {| status := 500;
              payload := DetailBody "400: Uploaded file is empty" |}) ∧
    fs w' = fs w0 ∧ calls w' = calls w0 ∧ ntmp w' = ntmp w0.
Proof.
  apply (empty_upload_is_turned_away ParseFileRoute (env_with (paged_engine 1))
           {| filename := Some "notes.txt"; content := [] |} "notes.txt" ".txt");
    [reflexivity | discriminate | reflexivity | reflexivity | by left].
Defined.

(** ** The workspace that the engine is given *)

(** X7.  When a request is staged, its input directory and its output
    directory are two different names that were free when the request
    came in, [tempfile.mkdtemp] was called exactly twice, no engine call
    was made yet, and on the disk that the engine is about to see both
    are directories and the output directory has no entry: whatever was
    listed under its name has been removed by the loop of lines 94-95 and
    179-180. *)
Theorem engine_is_given_fresh_directories ep env file w w2 ws :
  staged ep env file w = (w2, Ret ws) →
  fs w !! temp_dir ws = None ∧
  fs w !! output_dir ws = None ∧
  temp_dir ws ≠ output_dir ws ∧
  fs w2 !! temp_dir ws = Some Dir ∧
  fs w2 !! output_dir ws = Some Dir ∧
  children (fs w2) (output_dir ws) = [] ∧
  ntmp w2 = S (S (ntmp w)) ∧
  calls w2 = calls w.
Proof.
  intros H. apply staged_inv in H as (f & ext & p & Hv & Hp & Ht & Hd).
  destruct Hd as (N1 & N2 & Hw & F1 & D1 & F2 & D2 & D3 & F3 & C1 & Hk & Hn & Hc).
  repeat split; try done.
  - rewrite Hk. unfold staged_lookup.
    rewrite decide_False by done. rewrite C1.
    rewrite decide_False by (by intros [? ?]).
    rewrite decide_False by done. by rewrite decide_True.
  - rewrite Hk. unfold staged_lookup. by rewrite decide_True.
  - destruct (children (fs w2) (output_dir ws)) as [|n l] eqn:E; [done|].
    exfalso.
    assert (n ∈ children (fs w2) (output_dir ws)) as (k & Hs & Hn')%children_elem
      by (rewrite E; left).
    rewrite Hk in Hs. unfold staged_lookup in Hs.
    rewrite decide_False in Hs
      by (intros ->; by rewrite child_name_self in Hn').
    rewrite decide_True in Hs by eauto. by destruct Hs.
Qed.

(** A PDF staged on a disk with a stale entry under the output name. *)
Lemma engine_is_given_fresh_directories_witness :
  fs w_stale !! "/tmp/tmp0" = None ∧
  fs w_stale !! "/tmp/tmp1" = None ∧
  "/tmp/tmp0" ≠ "/tmp/tmp1" ∧
  fs (staged EngineParsePdf (env_with (paged_engine 1))
        (Some (upload "doc.pdf")) w_stale).1 !! "/tmp/tmp0" = Some Dir ∧
  fs (staged EngineParsePdf (env_with (paged_engine 1))
        (Some (upload "doc.pdf")) w_stale).1 !! "/tmp/tmp1" = Some Dir ∧
  children (fs (staged EngineParsePdf (env_with (paged_engine 1))
                  (Some (upload "doc.pdf")) w_stale).1) "/tmp/tmp1" = [] ∧
  ntmp (staged EngineParsePdf (env_with (paged_engine 1))
          (Some (upload "doc.pdf")) w_stale).1 = 2%nat ∧
  calls (staged EngineParsePdf (env_with (paged_engine 1))
           (Some (upload "doc.pdf")) w_stale).1 = [].
Proof.
  apply (engine_is_given_fresh_directories EngineParsePdf
           (env_with (paged_engine 1)) (Some (upload "doc.pdf")) w_stale
           _ pdf_ws).
  vm_compute. reflexivity.
Defined.



(** ** The footprint of the cleanup *)

#[local] Instance stays_in_refl ws : Reflexive (stays_in ws).
Proof. intros w. unfold stays_in. by split. Qed.

#[local] Instance stays_in_trans ws : Transitive (stays_in ws).
Proof.
  unfold stays_in. intros w1 w2 w3 (S1 & K1 & C1) (S2 & K2 & C2).
  split; [by etrans|]. split; [|by rewrite C2].
  intros k Hk. by rewrite K2, K1.
Qed.

Lemma changes_for_each_in {A} (R : relation World)
    `{!Reflexive R, !Transitive R} (l : list A) f :
  (∀ x, x ∈ l → changes R (f x)) → changes R (for_each l f).
Proof.
  induction l as [|x l IH]; simpl; intros Hf.
  - by apply changes_ret.
  - apply changes_bind; [done | apply Hf; left |].
    intros _. apply IH. intros y Hy. apply Hf. by right.
Qed.

Lemma delete_stays_in ws p w :
  in_workspace ws p →
  stays_in ws w {| fs := delete p (fs w); upos := upos w; ntmp := ntmp w;
                   calls := calls w |}.
Proof.
  intros Hp. split; [apply delete_subseteq|]. split; [|done].
  intros k Hk. cbn [fs]. apply lookup_delete_ne. by intros ->.
Qed.

Lemma remove_stays_in ws p :
  in_workspace ws p → changes (stays_in ws) (remove p).
Proof.
  intros Hp w w' r. unfold remove, bind. rewrite get_fs_spec.
  destruct (fs w !! p) as [[data|]|]; try by intros [= <- _].
  intros [= <- _]. by apply delete_stays_in.
Qed.

Lemma rmdir_stays_in ws d :
  in_workspace ws d → changes (stays_in ws) (rmdir d).
Proof.
  intros Hp w w' r. unfold rmdir, bind. rewrite get_fs_spec.
  destruct (fs w !! d) as [[data|]|]; try by intros [= <- _].
  destruct (children (fs w) d); [|by intros [= <- _]].
  intros [= <- _]. by apply delete_stays_in.
Qed.

Lemma path_exists_stays_in ws p : changes (stays_in ws) (path_exists p).
Proof. by intros w w' r [= <- _]. Qed.

(** Lines 130-132 and 220-222: the listed entries, then the directory. *)
Lemma clear_listed_stays_in ws :
  changes (stays_in ws)
    (let* names := listdir (output_dir ws) in
     for_each names (λ f, remove (path_join (output_dir ws) f)) >>
     rmdir (output_dir ws)).
Proof.
  intros w w' r. unfold bind at 1.
  destruct (listdir (output_dir ws) w) as [w1 [e|names]] eqn:El.
  - revert El. unfold listdir, bind. rewrite get_fs_spec.
    destruct (fs w !! output_dir ws) as [[data|]|]; try done;
      intros [= <- _] [= <- _]; done.
  - apply listdir_inv in El as (-> & _ & ->).
    apply changes_bind; try apply _.
    + apply changes_for_each_in; try apply _.
      intros n (k & _ & Hn)%children_elem. apply remove_stays_in.
      apply child_name_Some in Hn as Hk. destruct Hk as (<- & _).
      do 3 right. eauto.
    + intros _. apply rmdir_stays_in. right. right. by left.
Qed.

Lemma cleanup_stays_in ws : changes (stays_in ws) (cleanup ws).
Proof.
  unfold cleanup.
  apply changes_bind; try apply _; [apply path_exists_stays_in|].
  intros e1. apply changes_bind; try apply _.
  { destruct e1; [apply remove_stays_in; by left | by apply changes_ret]. }
  intros _. apply changes_bind; try apply _; [apply path_exists_stays_in|].
  intros e2. apply changes_bind; try apply _.
  { destruct e2; [apply rmdir_stays_in; right; by left | by apply changes_ret]. }
  intros _. apply changes_bind; try apply _; [apply path_exists_stays_in|].
  intros e3. destruct e3; [apply clear_listed_stays_in | by apply changes_ret].
Qed.

(** X9.  Whether it completes or raises half-way, the cleanup of lines
    124-132 and 214-222 only removes, and only in its workspace: no path
    is created or rewritten, every path other than the temp file, the two
    directories and the entries of the output directory is as before, and
    the engine is not called. *)
Theorem cleanup_stays_in_its_workspace ws w :
  fs (cleanup ws w).1 ⊆ fs w ∧
  (∀ k, k ≠ temp_path ws → k ≠ temp_dir ws → k ≠ output_dir ws →
        child_name (output_dir ws) k = None →
        fs (cleanup ws w).1 !! k = fs w !! k) ∧
  calls (cleanup ws w).1 = calls w.
Proof.
  destruct (cleanup ws w) as [w' r] eqn:H.
  apply cleanup_stays_in in H as (S & K & C). simpl.
  split; [done|]. split; [|done].
  intros k H1 H2 H3 H4. apply K.
  intros [?|[?|[?|[n Hn]]]]; try done. by rewrite H4 in Hn.
Qed.

(** X10.  The cleanup can be run again: after a cleanup that completed, a
    second one finds none of the three paths, removes nothing and
    completes as well. *)
Theorem cleanup_twice ws w w' :
  cleanup ws w = (w', Ret tt) → cleanup ws w' = (w', Ret tt).
Proof.
  intros H. apply cleanup_ret in H as (P1 & P2 & P3 & _).
  unfold cleanup.
  erewrite bind_ret; [|apply path_exists_spec].
  rewrite bool_decide_eq_false_2 by (rewrite P1; by intros [? ?]).
  erewrite bind_ret; [|reflexivity].
  erewrite bind_ret; [|apply path_exists_spec].
  rewrite bool_decide_eq_false_2 by (rewrite P2; by intros [? ?]).
  erewrite bind_ret; [|reflexivity].
  erewrite bind_ret; [|apply path_exists_spec].
  by rewrite bool_decide_eq_false_2 by (rewrite P3; by intros [? ?]).
Qed.

Lemma cleanup_twice_witness :
  cleanup pdf_ws
    (cleanup pdf_ws (staged EngineParsePdf (env_with (paged_engine 2))
                       (Some (upload "doc.pdf")) w0).1).1
  = ((cleanup pdf_ws (staged EngineParsePdf (env_with (paged_engine 2))
                        (Some (upload "doc.pdf")) w0).1).1, Ret tt).
Proof.
  apply (cleanup_twice pdf_ws
           (staged EngineParsePdf (env_with (paged_engine 2))
              (Some (upload "doc.pdf")) w0).1).
  vm_compute. reflexivity.
Defined.

(** X11.  The cleanup completes whenever the workspace is tidy: the temp
    file is a file or gone, the input directory is a directory holding
    nothing but the temp file or is gone, and the output directory is a
    directory holding only files or is gone.  The three paths are then
    gone and nothing outside the workspace has changed. *)
Theorem tidy_workspace_is_cleaned ws w :
  tidy ws (fs w) →
  ∃ w', cleanup ws w = (w', Ret tt) ∧
        fs w' !! temp_path ws = None ∧
        fs w' !! temp_dir ws = None ∧
        fs w' !! output_dir ws = None ∧
        (∀ k, ¬ in_workspace ws k → fs w' !! k = fs w !! k).
Proof.
  intros Ht. destruct (cleanup_completes ws w Ht) as (w' & H).
  exists w'. split; [done|].
  pose proof (cleanup_stays_in _ _ _ _ H) as (_ & K & _).
  by apply cleanup_ret in H as (? & ? & ? & _).
Qed.

(** The workspace after a two-page PDF was parsed. *)
Lemma tidy_workspace_is_cleaned_witness :
  ∃ w', cleanup pdf_ws
          (attempt EngineParsePdf (env_with (paged_engine 2)) pdf_ws
             default_mode false
             (staged EngineParsePdf (env_with (paged_engine 2))
                (Some (upload "doc.pdf")) w0).1).1 = (w', Ret tt) ∧
        fs w' !! temp_path pdf_ws = None ∧
        fs w' !! temp_dir pdf_ws = None ∧
        fs w' !! output_dir pdf_ws = None ∧
        (∀ k, ¬ in_workspace pdf_ws k →
              fs w' !! k =
              fs (attempt EngineParsePdf (env_with (paged_engine 2)) pdf_ws
                    default_mode false
                    (staged EngineParsePdf (env_with (paged_engine 2))
                       (Some (upload "doc.pdf")) w0).1).1 !! k).
Proof.
  apply tidy_workspace_is_cleaned. apply tidyb_tidy. vm_compute. reflexivity.
Defined.

(** ** A request leaves the disk as it found it *)















(** ** The layouts and the shape of a response *)


(** The page that a descriptor of the engine's result is answered with. *)
Lemma page_of_descriptor ep env file pm fp w w2 ws w3 ds w4 (i : nat) d :
  staged ep env file w = (w2, Ret ws) →
  call_engine env (engine_call ep ws pm fp) w2 = (w3, Ret ds) →
  cleanup ws w3 = (w4, Ret tt) →
  ds !! i = Some d →
  (ep = EngineParseImage → i = 0%nat) →
  ∃ resp pe,
    post (route_of ep) env file pm fp w =
      (w4, {| status := 200; payload := ParseBody resp |}) ∧
    results resp !! i = Some pe ∧
    full_layout_info pe = layout_of env (fs w3) d.
Proof.
  intros Hs He Hc Hi Hep. destruct ep; simpl in He.
  - pose proof (Hep eq_refl) as ->. destruct ds as [|d0 ds]; [done|].
    injection Hi as ->.
    eexists _, _. split; [|split].
    + exact (post_staged EngineParseImage _ _ _ _ _ _ _ _ _ _ _ Hs
               (attempt_image_returned _ _ _ _ _ _ _ _ He) Hc).
    + reflexivity.
    + reflexivity.
  - eexists _, _. split; [|split].
    + exact (post_staged EngineParsePdf _ _ _ fp _ _ _ _ _ _ _ Hs
               (attempt_pdf_returned _ _ _ _ _ _ _ He) Hc).
    + simpl. rewrite list_lookup_fmap, Hi. reflexivity.
    + reflexivity.
Qed.

(** X13.  A layout file that is there and loads is passed on as it
    loads.  Take a request that was staged, on which the engine returned
    the descriptors [ds] and whose cleanup completed.  If the descriptor
    behind a page of the response (any descriptor for /parse/pdf, the
    first one for /parse/image) names a non-empty path at which the
    engine left a file that [json.load] reads as [j], the request answers
    200 and that page carries [j]: the file is read before the cleanup
    removes it. *)
Theorem readable_layout_is_embedded
    ep env file pm fp w w2 ws w3 ds w4 (i : nat) d p data j :
  staged ep env file w = (w2, Ret ws) →
  call_engine env (engine_call ep ws pm fp) w2 = (w3, Ret ds) →
  cleanup ws w3 = (w4, Ret tt) →
  ds !! i = Some d →
  (ep = EngineParseImage → i = 0%nat) →
  layout_info_path d = Some p → p ≠ "" →
  fs w3 !! p = Some (File data) →
  json_load env data = Ret j →
  ∃ resp pe,
    post (route_of ep) env file pm fp w =
      (w4, {| status := 200; payload := ParseBody resp |}) ∧
    results resp !! i = Some pe ∧
    full_layout_info pe = j.
Proof.
  intros Hs He Hc Hi Hep Hp Hne Hf Hj.
  destruct (page_of_descriptor _ _ _ _ _ _ _ _ _ _ _ _ _ Hs He Hc Hi Hep)
    as (resp & pe & H1 & H2 & H3).
  exists resp, pe. split; [done|]. split; [done|].
  rewrite H3. unfold layout_of. rewrite Hp.
  destruct p as [|a p]; [done|]. by rewrite Hf, Hj.
Qed.

(** The third descriptor of the sloppy engine points at a file that holds
    the number 2. *)
Lemma readable_layout_is_embedded_witness :
  ∃ resp pe,
    post ParsePdfRoute (env_with sloppy_engine) (Some (upload "doc.pdf"))
      default_mode false w0 =
      ((post ParsePdfRoute (env_with sloppy_engine) (Some (upload "doc.pdf"))
          default_mode false w0).1,
       {| status := 200; payload := ParseBody resp |}) ∧
    results resp !! 2%nat = Some pe ∧
    full_layout_info pe = JNum 2.
Proof.
  apply (readable_layout_is_embedded EngineParsePdf (env_with sloppy_engine)
           (Some (upload "doc.pdf")) default_mode false w0
           (staged EngineParsePdf (env_with sloppy_engine)
              (Some (upload "doc.pdf")) w0).1
           pdf_ws
           (attempt EngineParsePdf (env_with sloppy_engine) pdf_ws
              default_mode false
              (staged EngineParsePdf (env_with sloppy_engine)
                 (Some (upload "doc.pdf")) w0).1).1
           [ {| layout_info_path := None; d_page_no := Some 7 |};
             {| layout_info_path := Some "/tmp/tmp1/p1.json"; d_page_no := Some 3 |};
             {| layout_info_path := Some "/tmp/tmp1/p2.json"; d_page_no := None |};
             {| layout_info_path := Some "/tmp/tmp1/gone.json"; d_page_no := Some 3 |} ]
           _ 2%nat
           {| layout_info_path := Some "/tmp/tmp1/p2.json"; d_page_no := None |}
           "/tmp/tmp1/p2.json" [Byte.x32]);
    try done; vm_compute; reflexivity.
Defined.

(** X14.  A layout path that is the empty string, or that leads to a
    directory, counts as no layout: the empty string fails the test of
    [if layout_info_path and ...], and opening a directory raises inside
    the [try] whose handler only prints.  The request answers 200 and the
    page carries [{}]. *)
Theorem unopenable_layout_gives_empty_object
    ep env file pm fp w w2 ws w3 ds w4 (i : nat) d p :
  staged ep env file w = (w2, Ret ws) →
  call_engine env (engine_call ep ws pm fp) w2 = (w3, Ret ds) →
  cleanup ws w3 = (w4, Ret tt) →
  ds !! i = Some d →
  (ep = EngineParseImage → i = 0%nat) →
  layout_info_path d = Some p →
  p = "" ∨ fs w3 !! p = Some Dir →
  ∃ resp pe,
    post (route_of ep) env file pm fp w =
      (w4, {| status := 200; payload := ParseBody resp |}) ∧
    results resp !! i = Some pe ∧
    full_layout_info pe = empty_object.
Proof.
  intros Hs He Hc Hi Hep Hp Hd.
  destruct (page_of_descriptor _ _ _ _ _ _ _ _ _ _ _ _ _ Hs He Hc Hi Hep)
    as (resp & pe & H1 & H2 & H3).
  exists resp, pe. split; [done|]. split; [done|].
  rewrite H3. unfold layout_of. rewrite Hp.
  destruct Hd as [->|Hd]; [done|]. destruct p; [done|]. by rewrite Hd.
Qed.

(** An image whose first descriptor names the output directory itself. *)
Lemma unopenable_layout_gives_empty_object_witness :
  ∃ resp pe,
    post ParseImageRoute (env_with pathless_engine) (Some (upload "scan.png"))
      default_mode false w0 =
      ((post ParseImageRoute (env_with pathless_engine) (Some (upload "scan.png"))
          default_mode false w0).1,
       {| status := 200; payload := ParseBody resp |}) ∧
    results resp !! 0%nat = Some pe ∧
    full_layout_info pe = empty_object.
Proof.
  apply (unopenable_layout_gives_empty_object EngineParseImage
           (env_with pathless_engine)
           (Some (upload "scan.png")) default_mode false w0
           (staged EngineParseImage (env_with pathless_engine)
              (Some (upload "scan.png")) w0).1
           image_ws
           (attempt EngineParseImage (env_with pathless_engine) image_ws
              default_mode false
              (staged EngineParseImage (env_with pathless_engine)
                 (Some (upload "scan.png")) w0).1).1
           [ {| layout_info_path := Some "/tmp/tmp1"; d_page_no := Some 0 |};
             {| layout_info_path := Some ""; d_page_no := Some 1 |} ]
           _ 0%nat
           {| layout_info_path := Some "/tmp/tmp1"; d_page_no := Some 0 |}
           "/tmp/tmp1");
    try done; try (vm_compute; reflexivity).
  right. vm_compute. reflexivity.
Defined.

(** X15.  Once the engine has returned for a PDF, building the response
    cannot fail: whatever list of descriptors [ds] comes back, the empty
    list included, a request whose cleanup completes is answered 200 with
    [total_pages] the length of [ds] and one page per descriptor, each
    with the descriptor's page number and its layout. *)
Theorem pdf_result_is_answered_200 env file pm fp w w2 ws w3 ds w4 :
  staged EngineParsePdf env file w = (w2, Ret ws) →
  call_engine env (pdf_call ws pm) w2 = (w3, Ret ds) →
  cleanup ws w3 = (w4, Ret tt) →
  post ParsePdfRoute env file pm fp w =
    (w4, {| status := 200;
            payload := ParseBody
              {| success := true;
                 total_pages := length ds;
                 results :=
                   map (λ d, {| page_no := d_page_no d;
                                full_layout_info := layout_of env (fs w3) d |})
                       ds |} |}).
Proof.
  intros Hs He Hc.
  exact (post_staged EngineParsePdf _ _ _ fp _ _ _ _ _ _ _ Hs
           (attempt_pdf_returned _ _ _ _ _ _ _ He) Hc).
Qed.

(** An engine that finds no page in the PDF: the answer is a 200 with no
    pages, where the same result for an image is an error. *)
Lemma pdf_result_is_answered_200_witness :
  post ParsePdfRoute (env_with (paged_engine 0)) (Some (upload "doc.pdf"))
    default_mode false w0 =
    ((post ParsePdfRoute (env_with (paged_engine 0)) (Some (upload "doc.pdf"))
        default_mode false w0).1,
     {| status := 200;
        payload := ParseBody {| success := true; total_pages := 0;
                                results := [] |} |}).
Proof.
  apply (pdf_result_is_answered_200 (env_with (paged_engine 0))
           (Some (upload "doc.pdf")) default_mode false w0
           (staged EngineParsePdf (env_with (paged_engine 0))
              (Some (upload "doc.pdf")) w0).1
           pdf_ws
           (attempt EngineParsePdf (env_with (paged_engine 0)) pdf_ws
              default_mode false
              (staged EngineParsePdf (env_with (paged_engine 0))
                 (Some (upload "doc.pdf")) w0).1).1
           []);
    vm_compute; reflexivity.
Defined.


